(** * obt/linkbase.c: the link database of Openbox's toolkit

    A shallow embedding of [obt/linkbase.c] and the properties of its
    specification that were checked against it.

    Layout of the development:
    - [Locale]: the locale parser at the head of [obt_linkbase_new];
    - [Glib]: the few GLib list and string functions the file relies on;
    - the collaborators (links, the watch, the parser) as an interface;
    - [LinkBase]: the data structures, the [update] handler and the public
      functions, written in a small monad that records the calls made to
      collaborators and stops where C leaves the behaviour undefined;
    - [Sample]: a concrete link implementation on which the handler is run;
    - [Facts]: what holds of the handler in general;
    - the properties of the specification, each settled on the code. *)

From Stdlib Require Import ZArith Ascii String Sorted.
From stdpp Require Import gmap strings list fin_maps sorting.

Local Open Scope string_scope.
Local Open Scope list_scope.

(* ===================================================================== *)
(** ** Locale parsing (linkbase.c, lines 308-348) *)
(* ===================================================================== *)

Module Locale.

(** [locale[i]] on a NUL-terminated buffer: the terminator is read at the
    end of the string. *)
Definition char_at (s : string) (i : nat) : ascii :=
  match String.get i s with
  | Some c => c
  | None => Ascii.zero
  end.

(** [locale += n]. *)
Fixpoint advance (n : nat) (s : string) : string :=
  match n, s with
  | O, _ => s
  | S n', String _ s' => advance n' s'
  | S _, EmptyString => EmptyString
  end.

(** [g_strndup(s, n)]: the first [n] bytes of [s]. *)
Definition g_strndup (s : string) (n : nat) : string := String.substring 0 n s.

(** The test that ends a segment on a byte that is not a letter:
    [((guchar)c < 'A' || (guchar)c > 'Z') && ((guchar)c < 'a' || (guchar)c > 'z')]. *)
Definition not_letter (c : ascii) : bool :=
  let n := nat_of_ascii c in
  ((n <? 65)%nat || (90 <? n)%nat) && ((n <? 97)%nat || (122 <? n)%nat).

Definition is_char (c d : ascii) : bool := Ascii.eqb c d.

(** One [for (...; ; ++i)] loop of the parser, run on the bytes that are
    still ahead.  [stop] is the set of delimiters of the loop's first
    branch (the terminating NUL always belongs to it).  The result is the
    number of bytes stepped over, and whether the loop was left through
    the first branch. *)
Fixpoint scan (stop : ascii -> bool) (s : string) : nat * bool :=
  match s with
  | EmptyString => (O, true)
  | String c s' =>
      if is_char c Ascii.zero || stop c then (O, true)
      else if not_letter c then (O, false)
      else let '(i, stored) := scan stop s' in (S i, stored)
  end.

Record parts := Parts {
  language : option string;
  country : option string;
  modifier : option string
}.

Definition set (o : option string) : bool :=
  match o with Some _ => true | None => false end.

(** The four loops of [obt_linkbase_new], with the running [locale]
    pointer and index [i] threaded through as in the source.  The three
    fields start as NULL ([g_slice_new0]). *)
Definition parse (locale : string) : parts :=
  (* language *)
  let '(i, stored) :=
    scan (fun c => is_char c "_" || is_char c "." || is_char c "@") locale in
  let language := if stored then Some (g_strndup locale i) else None in
  (* country *)
  let '(locale, i, country) :=
    if set language && is_char (char_at locale i) "_" then
      let locale := advance (i + 1) locale in
      let '(i, stored) :=
        scan (fun c => is_char c "." || is_char c "@") locale in
      (locale, i, if stored then Some (g_strndup locale i) else None)
    else (locale, i, None) in
  (* the charset segment, stepped over without being kept *)
  let i :=
    if set country && is_char (char_at locale i) "." then
      (i + fst (scan (fun c => is_char c "@") (advance i locale)))%nat
    else i in
  (* modifier *)
  let modifier :=
    if set country && is_char (char_at locale i) "@" then
      let locale := advance (i + 1) locale in
      let '(i, stored) := scan (fun _ => false) locale in
      if stored then Some (g_strndup locale i) else None
    else None in
  Parts language country modifier.

(** A string made of ASCII letters only, as the loops test them. *)
Fixpoint letters (s : string) : bool :=
  match s with
  | EmptyString => true
  | String c s' => negb (not_letter c) && letters s'
  end.

End Locale.

(* ===================================================================== *)
(** ** The GLib functions used by the file *)
(* ===================================================================== *)

Module Glib.

(** [g_str_has_suffix(str, suffix)]. *)
Definition g_str_has_suffix (str suffix : string) : bool :=
  let str_len := String.length str in
  let suffix_len := String.length suffix in
  if (str_len <? suffix_len)%nat then false
  else String.eqb (String.substring (str_len - suffix_len) suffix_len str) suffix.

(** A [GSList *] used as a cursor into a list ([it] in the source): NULL,
    the node at a position of the list it was taken from, a node that
    [g_slist_delete_link] has since released, or a variable that was
    never assigned. *)
Inductive GSListPtr :=
| Null
| Node (n : nat)
| Released
| Unassigned.

Definition g_slist_next (it : GSListPtr) : GSListPtr :=
  match it with
  | Node n => Node (S n)
  | other => other
  end.

Definition is_null (it : GSListPtr) : bool :=
  match it with Null => true | _ => false end.

(** [g_slist_delete_link(list, link_)]: unlinks and frees the node. *)
Definition g_slist_delete_link {A} (l : list A) (it : GSListPtr) : list A :=
  match it with
  | Node n => delete n l
  | _ => l
  end.

(** [g_slist_insert_before(slist, sibling, data)]: the new node goes in
    front of [sibling]; GLib walks the list comparing node addresses and,
    when [sibling] is NULL or is not a node of the list, ends up
    appending.  On an empty list the result is the single new node. *)
Definition g_slist_insert_before {A} (l : list A) (sibling : GSListPtr) (data : A)
  : list A :=
  match sibling with
  | Node n => if (n <? List.length l)%nat then take n l ++ data :: drop n l else l ++ [data]
  | _ => l ++ [data]
  end.

(** [g_slist_prepend]. *)
Definition g_slist_prepend {A} (l : list A) (data : A) : list A := data :: l.

End Glib.

Import Glib.

(* ===================================================================== *)
(** ** Collaborators *)
(* ===================================================================== *)

(** The three kinds of link ([ObtLinkType] of obt/link.h). *)
Inductive ObtLinkType :=
| OBT_LINK_TYPE_APPLICATION
| OBT_LINK_TYPE_URL
| OBT_LINK_TYPE_DIRECTORY.

(** The notifications delivered by the watch ([ObtWatchNotifyType]). *)
Inductive ObtWatchNotifyType :=
| OBT_WATCH_ADDED
| OBT_WATCH_REMOVED
| OBT_WATCH_MODIFIED
| OBT_WATCH_SELF_REMOVED.

(** What the change callback is told ([ObtLinkBaseUpdateType]). *)
Inductive ObtLinkBaseUpdateType :=
| OBT_LINKBASE_ADDED
| OBT_LINKBASE_REMOVED.

(** [GQuark] and [guint] are unsigned, [gint] is signed.  The only
    arithmetic in the file is [++] and [--] on a [gint] that counts
    directories or owners; these stay far from the 32-bit bounds and are
    written without wrap-around. *)
Definition GQuark := N.
Definition guint := N.
Definition gint := Z.
Bind Scope N_scope with GQuark guint.
Bind Scope Z_scope with gint.

#[global] Instance ObtLinkType_eq_dec : EqDecision ObtLinkType.
Proof. solve_decision. Defined.
#[global] Instance ObtLinkBaseUpdateType_eq_dec : EqDecision ObtLinkBaseUpdateType.
Proof. solve_decision. Defined.

(** Modelled from the spec: obt/link.c and obt/link.h are not among the
    sources.  A value of [ObtLink] stands for a pointer to a live record;
    equality is pointer equality.  The accessors are the ones the spec
    lists for the record parser: kind, declared categories (for
    applications), source path, display eligibility; together with the
    derivation of an identity from a path relative to its base directory. *)
Class LinkApi := {
  ObtLink : Type;
  ObtLink_eq_dec :: EqDecision ObtLink;
  obt_link_source_file : ObtLink -> string;
  obt_link_type : ObtLink -> ObtLinkType;
  obt_link_app_categories : ObtLink -> list GQuark;
  obt_link_display : ObtLink -> guint -> bool;
  obt_link_id_from_ddfile : string -> string
}.

(** The state of the outside world that an event handler can observe.
    [obt_link_from_ddfile] is the record parser, called with the path and
    the three locale components (its [paths] argument is a handle this file
    only passes on); NULL is [None].  [existing] lists, for a
    directory, the (sub_path, full_path) of the files a new watch reports
    at once.  [g_build_filename] joins a directory and a file name. *)
Record World `{LinkApi} := {
  obt_link_from_ddfile :
    string -> option string -> option string -> option string -> option ObtLink;
  existing : string -> list (string * string);
  g_build_filename : string -> string -> string
}.

(* ===================================================================== *)
(** ** The link base *)
(* ===================================================================== *)

Section LinkBase.
Context `{LinkApi}.

(** [struct _ObtLinkBaseEntry]. *)
Record ObtLinkBaseEntry := Entry {
  priority : gint;
  link : ObtLink
}.

(** What a [gpointer] stored in a list node, or handed to the callback,
    points to: the file has two kinds of object behind such pointers. *)
Inductive gpointer :=
| EntryPtr (e : ObtLinkBaseEntry)
| LinkPtr (l : ObtLink).

#[global] Instance ObtLinkBaseEntry_eq_dec : EqDecision ObtLinkBaseEntry.
Proof. solve_decision. Defined.
#[global] Instance gpointer_eq_dec : EqDecision gpointer.
Proof. solve_decision. Defined.

(** A pointer variable to a value: never assigned, NULL, or valid. *)
Inductive pointer (A : Type) :=
| Wild
| NullPtr
| Ptr (a : A).
Arguments Wild {A}.
Arguments NullPtr {A}.
Arguments Ptr {A} a.

(** [struct _ObtLinkBase].  [paths] and [watch] are handles on
    collaborators and carry no state of this file.  [base] maps an id to
    its list of entries, [categories] maps a quark to the [links] of its
    [ObtLinkBaseCategory]. *)
Record ObtLinkBase := LinkBase {
  ref : gint;
  environments : guint;
  language : option string;
  country : option string;
  modifier : option string;
  base : gmap string (list ObtLinkBaseEntry);
  path_to_priority : gmap string gint;
  categories : gmap GQuark (list ObtLink);
  update_func : option N;
  update_data : N
}.

Definition set_ref (self : ObtLinkBase) (r : gint) : ObtLinkBase :=
  LinkBase r (environments self) (language self) (country self) (modifier self)
    (base self) (path_to_priority self) (categories self)
    (update_func self) (update_data self).

Definition set_base (self : ObtLinkBase) (b : gmap string (list ObtLinkBaseEntry))
  : ObtLinkBase :=
  LinkBase (ref self) (environments self) (language self) (country self)
    (modifier self) b (path_to_priority self) (categories self)
    (update_func self) (update_data self).

Definition set_path_to_priority (self : ObtLinkBase) (p : gmap string gint)
  : ObtLinkBase :=
  LinkBase (ref self) (environments self) (language self) (country self)
    (modifier self) (base self) p (categories self)
    (update_func self) (update_data self).

Definition set_categories (self : ObtLinkBase) (c : gmap GQuark (list ObtLink))
  : ObtLinkBase :=
  LinkBase (ref self) (environments self) (language self) (country self)
    (modifier self) (base self) (path_to_priority self) c
    (update_func self) (update_data self).

(** *** Effects *)

(** Calls that leave the file: the change callback with its arguments, the
    release of a reference on a link, the installation of a watch. *)
Inductive effect :=
| UpdateFunc (func : N) (type : ObtLinkBaseUpdateType) (arg : gpointer) (data : N)
| LinkUnref (l : ObtLink)
| WatchAdd (path : string).

(** Where C gives the program no meaning. *)
Inductive fault :=
| NullDereference
| UninitialisedRead
| UseAfterFree
| WrongObject.

Inductive outcome (A : Type) :=
| Ok (a : A)
| Undefined (f : fault).
Arguments Ok {A} a.
Arguments Undefined {A} f.

(** A computation: the effects it had, in order, and how it ended. *)
Record M (A : Type) := Run {
  trace : list effect;
  result : outcome A
}.
Arguments Run {A} trace result.
Arguments trace {A} m.
Arguments result {A} m.

#[global] Instance M_ret : MRet M := fun A a => Run [] (Ok a).

#[global] Instance M_bind : MBind M := fun A B f m =>
  match result m with
  | Ok a => Run (trace m ++ trace (f a)) (result (f a))
  | Undefined u => Run (trace m) (Undefined u)
  end.

Definition undefined {A} (u : fault) : M A := Run [] (Undefined u).
Definition emit (e : effect) : M unit := Run [e] (Ok tt).

Fixpoint foldM {A B} (f : B -> A -> M B) (b : B) (l : list A) : M B :=
  match l with
  | [] => mret b
  | a :: l' => b' ← f b a; foldM f b' l'
  end.

(** [*p]. *)
Definition deref {A} (p : pointer A) : M A :=
  match p with
  | Ptr a => mret a
  | NullPtr => undefined NullDereference
  | Wild => undefined UninitialisedRead
  end.

(** [it->data]. *)
Definition g_slist_data {A} (l : list A) (it : GSListPtr) : M A :=
  match it with
  | Node n =>
      match l !! n with
      | Some a => mret a
      | None => undefined NullDereference
      end
  | Null => undefined NullDereference
  | Released => undefined UseAfterFree
  | Unassigned => undefined UninitialisedRead
  end.

(** Using a [gpointer] as an [ObtLink *]: the accessors of obt/link.h are
    only defined on links. *)
Definition as_link (p : gpointer) : M ObtLink :=
  match p with
  | LinkPtr l => mret l
  | EntryPtr _ => undefined WrongObject
  end.

(** [if (self->update_func) self->update_func(self, type, link, self->update_data);] *)
Definition notify (self : ObtLinkBase) (type : ObtLinkBaseUpdateType) (arg : gpointer)
  : M unit :=
  match update_func self with
  | Some func => emit (UpdateFunc func type arg (update_data self))
  | None => mret tt
  end.

(** *** Lines 75-147 *)

Definition base_entry_free (e : ObtLinkBaseEntry) : M unit :=
  emit (LinkUnref (link e)).

(** Called by [g_hash_table_foreach] on each value of [base]. *)
Definition base_entry_list_free (value : list ObtLinkBaseEntry) : M unit :=
  foldM (fun _ e => base_entry_free e) tt value.

Fixpoint find_base_entry_path (lst : list ObtLinkBaseEntry) (full_path : string)
  : GSListPtr :=
  match lst with
  | [] => Null
  | e :: rest =>
      if String.eqb (obt_link_source_file (link e)) full_path then Node 0
      else g_slist_next (find_base_entry_path rest full_path)
  end.

(** Finds the first entry in the list with a priority number >= [pri]. *)
Fixpoint find_base_entry_priority (lst : list ObtLinkBaseEntry) (pri : gint)
  : GSListPtr :=
  match lst with
  | [] => Null
  | e :: rest =>
      if (priority e >=? pri)%Z then Node 0
      else g_slist_next (find_base_entry_priority rest pri)
  end.

Definition category_add (lb : ObtLinkBase) (cat : GQuark) (l : ObtLink) : ObtLinkBase :=
  let links :=
    match categories lb !! cat with
    | Some links => links
    | None => []
    end in
  set_categories lb (<[cat := g_slist_prepend links l]> (categories lb)).

(** The [while (it->data != link)] walk of [category_remove]: the position
    of the first node holding [p], if there is one. *)
Fixpoint category_walk (links : list ObtLink) (p : gpointer) : GSListPtr :=
  match links with
  | [] => Null
  | l :: rest =>
      if decide (LinkPtr l = p) then Node 0
      else g_slist_next (category_walk rest p)
  end.

Definition category_remove (lb : ObtLinkBase) (cat : GQuark) (p : gpointer)
  : M ObtLinkBase :=
  match categories lb !! cat with
  | None => undefined NullDereference
  | Some links =>
      let it := category_walk links p in
      if is_null it then undefined NullDereference
      else
        let links := g_slist_delete_link links it in
        match links with
        | [] => mret (set_categories lb (delete cat (categories lb)))
        | _ => mret (set_categories lb (<[cat := links]> (categories lb)))
        end
  end.

(** *** The handler (lines 149-287) *)

(** [g_hash_table_lookup] on a table whose values are pointers to a
    [gint]. *)
Definition lookup_priority (t : gmap string gint) (key : string) : pointer gint :=
  match t !! key with
  | Some p => Ptr p
  | None => NullPtr
  end.

(** Lines 177-193 of the [OBT_WATCH_REMOVED] case and, word for word,
    lines 213-229 of the [OBT_WATCH_MODIFIED] case; [it] is not NULL.
    The nodes of a list of [base] hold entries (line 268 stores them,
    line 95 reads them back as such); here the node's data is taken as
    the link itself, handed to the callback, and then used as a link.
    After [g_slist_delete_link] the node [it] is gone, and line 193 (229)
    reads [it->data] once more. *)
Definition drop_entry (self : ObtLinkBase) (lst : list ObtLinkBaseEntry)
    (it : GSListPtr) : M (ObtLinkBase * list ObtLinkBaseEntry) :=
  e ← g_slist_data lst it;
  let lnk := EntryPtr e in
  notify self OBT_LINKBASE_REMOVED lnk;;
  l ← as_link lnk;
  self ← (if decide (obt_link_type l = OBT_LINK_TYPE_APPLICATION)
          then foldM (fun self cat => category_remove self cat lnk)
                     self (obt_link_app_categories l)
          else mret self);
  let lst := g_slist_delete_link lst it in
  let it := Released in
  freed ← g_slist_data lst it;
  base_entry_free freed;;
  mret (self, lst).

(** Lines 274-281: the link is filed under each of its categories. *)
Definition file_categories (self : ObtLinkBase) (l : ObtLink) : ObtLinkBase :=
  if decide (obt_link_type l = OBT_LINK_TYPE_APPLICATION)
  then foldl (fun self cat => category_add self cat l) self (obt_link_app_categories l)
  else self.

(** Lines 249-284, entered when [add] is set. *)
Definition add_link (w : World) (full_path id : string)
    (lst : list ObtLinkBaseEntry) (it : GSListPtr) (pri : pointer gint)
    (self : ObtLinkBase) : M ObtLinkBase :=
  match obt_link_from_ddfile w full_path (language self) (country self) (modifier self) with
  | None => mret self
  | Some l =>
      if negb (obt_link_display l (environments self)) then
        emit (LinkUnref l);; mret self
      else
        p ← deref pri;
        let e := Entry p l in
        notify self OBT_LINKBASE_ADDED (LinkPtr l);;
        let lst := g_slist_insert_before lst it e in
        let self := set_base self (<[id := lst]> (base self)) in
        mret (file_categories self l)
  end.

(** Called when a change happens in the filesystem.  The [switch] yields
    the locals the rest of the function reads: [self], [list] (here
    [lst]), [it], [priority] (here [pri]) and [add]. *)
Definition update (w : World) (base_path sub_path full_path : string)
    (type : ObtWatchNotifyType) (self : ObtLinkBase) : M ObtLinkBase :=
  if negb (g_str_has_suffix sub_path ".desktop") then mret self
  else
    let id := obt_link_id_from_ddfile sub_path in
    let lst := default [] (base self !! id) in
    '(self, lst, it, pri, add) ←
      match type with
      | OBT_WATCH_SELF_REMOVED =>
          mret (self, lst, Unassigned, Wild, false)
      | OBT_WATCH_REMOVED =>
          let it := find_base_entry_path lst full_path in
          if is_null it then mret (self, lst, it, Wild, false)
          else
            '(self, lst) ← drop_entry self lst it;
            let self :=
              match lst with
              | [] => set_base self (delete id (base self))
              | _ => set_base self (<[id := lst]> (base self))
              end in
            mret (self, lst, Released, Wild, false)
      | OBT_WATCH_MODIFIED =>
          let it := find_base_entry_path lst full_path in
          if is_null it then mret (self, lst, it, Wild, false)
          else
            '(self, lst) ← drop_entry self lst it;
            mret (self, lst, Released, Wild, true)
      | OBT_WATCH_ADDED =>
          let pri := lookup_priority (path_to_priority self) base_path in
          p ← deref pri;
          let it := find_base_entry_priority lst p in
          if is_null it then mret (self, lst, it, pri, true)
          else
            e ← g_slist_data lst it;
            mret (self, lst, it, pri, negb (priority e =? p)%Z)
      end;
    if add : bool then add_link w full_path id lst it pri self
    else mret self.

(** *** The public functions (lines 289-416) *)

(** Modelled from the spec: obt/watch.c is not among the sources.
    Installing a watch reports the files already in the directory at
    once, each as an [OBT_WATCH_ADDED] notification for that directory,
    before [obt_watch_add] returns. *)
Definition obt_watch_add (w : World) (base_path : string) (self : ObtLinkBase)
  : M ObtLinkBase :=
  emit (WatchAdd base_path);;
  foldM (fun self f => update w base_path (fst f) (snd f) OBT_WATCH_ADDED self)
        self (existing w base_path).

(** The structure as [g_slice_new0] and the three [g_hash_table_new_full]
    leave it, with the locale parsed (lines 297-348). *)
Definition linkbase_alloc (locale : string) (env : guint) : ObtLinkBase :=
  let loc := Locale.parse locale in
  LinkBase 0%Z env (Locale.language loc) (Locale.country loc) (Locale.modifier loc)
    ∅ ∅ ∅ None 0%N.

(** One turn of the loop of lines 354-373 over [obt_paths_data_dirs]. *)
Definition register_dir (w : World) (st : ObtLinkBase * gint) (dir : string)
  : M (ObtLinkBase * gint) :=
  let '(self, pri) := st in
  match path_to_priority self !! dir with
  | Some _ => mret (self, pri)
  | None =>
      let base_path := g_build_filename w dir "applications" in
      let self :=
        set_path_to_priority self (<[base_path := pri]> (path_to_priority self)) in
      self ← obt_watch_add w base_path self;
      mret (self, (pri + 1)%Z)
  end.

Definition obt_linkbase_new (w : World) (data_dirs : list string) (locale : string)
    (env : guint) : M ObtLinkBase :=
  st ← foldM (register_dir w) (linkbase_alloc locale env, 0%Z) data_dirs;
  mret (fst st).

Definition obt_linkbase_ref (self : ObtLinkBase) : ObtLinkBase :=
  set_ref self (ref self + 1)%Z.

(** The result is what the handle points to afterwards: [None] once the
    structure has been freed.  Of the releases made on the way, the ones on
    links are recorded (through [base_entry_list_free]); those of the watch,
    the paths and the three tables are not. *)
Definition obt_linkbase_unref (self : ObtLinkBase) : M (option ObtLinkBase) :=
  let self := set_ref self (ref self - 1)%Z in
  if (ref self <? 1)%Z then
    foldM (fun _ kv => base_entry_list_free (snd kv)) tt (map_to_list (base self));;
    mret None
  else mret (Some self).

Definition obt_linkbase_set_update_func (lb : ObtLinkBase) (func : option N) (data : N)
  : ObtLinkBase :=
  LinkBase (ref lb) (environments lb) (language lb) (country lb) (modifier lb)
    (base lb) (path_to_priority lb) (categories lb) func data.

Definition obt_linkbase_category (lb : ObtLinkBase) (category : GQuark) : list ObtLink :=
  match categories lb !! category with
  | None => []
  | Some links => links
  end.

(** *** Handles and their clients *)

(** A client's view of a handle: the structure it points to, or nothing
    once the structure has been freed. *)
Definition handle := option ObtLinkBase.

Inductive client_call :=
| Retain
| Release.

Definition client_step (h : handle) (c : client_call) : M handle :=
  match h with
  | None => undefined UseAfterFree
  | Some self =>
      match c with
      | Retain => mret (Some (obt_linkbase_ref self))
      | Release => obt_linkbase_unref self
      end
  end.

Definition client_run (h : handle) (cs : list client_call) : M handle :=
  foldM client_step h cs.

(** The callback invocations among the effects of a computation. *)
Definition is_update_func (e : effect) : bool :=
  match e with
  | UpdateFunc _ _ _ _ => true
  | _ => false
  end.

Definition callbacks (t : list effect) : list effect := List.filter is_update_func t.

(** *** States and invariants *)

(** One event as the watch delivers it. *)
Record event := Event {
  ev_world : World;
  ev_base_path : string;
  ev_sub_path : string;
  ev_full_path : string;
  ev_type : ObtWatchNotifyType
}.

Definition handle_event (ev : event) (self : ObtLinkBase) : M ObtLinkBase :=
  update (ev_world ev) (ev_base_path ev) (ev_sub_path ev) (ev_full_path ev)
    (ev_type ev) self.

(** The states a live structure goes through, as long as every call made
    on it has a defined behaviour. *)
Inductive reachable : ObtLinkBase -> Prop :=
| reach_alloc locale env :
    reachable (linkbase_alloc locale env)
| reach_register self base_path pri :
    reachable self ->
    reachable (set_path_to_priority self (<[base_path := pri]> (path_to_priority self)))
| reach_update self ev self' :
    reachable self ->
    result (handle_event ev self) = Ok self' ->
    reachable self'
| reach_set_update_func self func data :
    reachable self ->
    reachable (obt_linkbase_set_update_func self func data)
| reach_ref self :
    reachable self ->
    reachable (obt_linkbase_ref self)
| reach_unref self self' :
    reachable self ->
    result (obt_linkbase_unref self) = Ok (Some self') ->
    reachable self'.

(** Strictly ascending priorities. *)
Definition ascending (lst : list ObtLinkBaseEntry) : Prop :=
  StronglySorted Z.lt (List.map priority lst).

Definition base_ascending (self : ObtLinkBase) : Prop :=
  forall id lst, base self !! id = Some lst -> ascending lst.

Definition base_nonempty (self : ObtLinkBase) : Prop :=
  forall id lst, base self !! id = Some lst -> lst <> [].

(** The link [l] is held by some entry of [base]. *)
Definition indexed (self : ObtLinkBase) (l : ObtLink) : Prop :=
  exists id lst e, base self !! id = Some lst /\ e ∈ lst /\ link e = l.

Definition categories_consistent (self : ObtLinkBase) : Prop :=
  forall cat l,
    l ∈ obt_linkbase_category self cat <->
    indexed self l /\ obt_link_type l = OBT_LINK_TYPE_APPLICATION
    /\ cat ∈ obt_link_app_categories l.

(** The directories on which a watch was installed, in order. *)
Definition watched (t : list effect) : list string :=
  omap (fun e => match e with WatchAdd path => Some path | _ => None end) t.

(** The links on which a reference was released, in order. *)
Definition released (t : list effect) : list ObtLink :=
  omap (fun e => match e with LinkUnref l => Some l | _ => None end) t.

(** The links held by the entries of [base]. *)
Definition held (self : ObtLinkBase) : list ObtLink :=
  concat (List.map (fun kv => List.map link (snd kv)) (map_to_list (base self))).

End LinkBase.

Arguments Wild {A}.
Arguments NullPtr {A}.
Arguments Ptr {A} a.
Arguments Ok {A} a.
Arguments Undefined {A} f.
Arguments Run {_ A} trace result.
Arguments trace {_ A} m.
Arguments result {_ A} m.

(* ===================================================================== *)
(** ** A concrete link implementation to run the handler on *)
(* ===================================================================== *)

Module Sample.

(** A parsed description file; [address] tells two records apart. *)
Record desktop := Desktop {
  address : N;
  source_file : string;
  kind : ObtLinkType;
  cats : list GQuark;
  shown : bool
}.

#[export] Instance desktop_eq_dec : EqDecision desktop.
Proof. solve_decision. Defined.

#[export] Instance api : LinkApi := {|
  ObtLink := desktop;
  obt_link_source_file := source_file;
  obt_link_type := kind;
  obt_link_app_categories := cats;
  obt_link_display := fun l _ => shown l;
  obt_link_id_from_ddfile := fun sub_path => sub_path
|}.

(** A world given by the files that parse, and by what each watched
    directory holds.  The file-name join agrees with GLib's on elements
    that neither start nor end with a separator. *)
Definition world (files : list (string * desktop))
    (dirs : list (string * list (string * string))) : World :=
  {| obt_link_from_ddfile := fun full_path _ _ _ =>
       snd <$> List.find (fun f => String.eqb (fst f) full_path) files;
     existing := fun base_path =>
       match List.find (fun d => String.eqb (fst d) base_path) dirs with
       | Some d => snd d
       | None => []
       end;
     g_build_filename := fun dir file => dir +:+ "/" +:+ file |}.

Definition Utility : GQuark := 1%N.
Definition Office : GQuark := 2%N.

Definition usr := "/usr/share/applications".
Definition home := "/home/u/.local/share/applications".

Definition gedit_usr : desktop :=
  Desktop 100 (usr +:+ "/gedit.desktop") OBT_LINK_TYPE_APPLICATION [Utility; Office] true.
Definition gedit_home : desktop :=
  Desktop 101 (home +:+ "/gedit.desktop") OBT_LINK_TYPE_APPLICATION [Utility] true.

(** Two data directories, [home] before [usr], each holding a
    gedit.desktop. *)
Definition two_dirs : World :=
  world [(home +:+ "/gedit.desktop", gedit_home); (usr +:+ "/gedit.desktop", gedit_usr)]
        [(home, [("gedit.desktop", home +:+ "/gedit.desktop")]);
         (usr, [("gedit.desktop", usr +:+ "/gedit.desktop")])].

(** Only [usr], holding gedit.desktop. *)
Definition one_dir : World :=
  world [(usr +:+ "/gedit.desktop", gedit_usr)]
        [(usr, [("gedit.desktop", usr +:+ "/gedit.desktop")])].

(** The same directory after gedit.desktop has become unreadable. *)
Definition one_dir_broken : World :=
  world [] [(usr, [("gedit.desktop", usr +:+ "/gedit.desktop")])].

Definition entry (pri : gint) (d : desktop) : ObtLinkBaseEntry := @Entry api pri d.

Definition state_of (m : M ObtLinkBase) : ObtLinkBase :=
  match result m with
  | Ok self => self
  | Undefined _ => linkbase_alloc "" 0%N
  end.

Definition created_one : ObtLinkBase :=
  state_of (obt_linkbase_new one_dir ["/usr/share"] "en_US" 0%N).

Definition created_two : ObtLinkBase :=
  state_of (obt_linkbase_new two_dirs ["/home/u/.local/share"; "/usr/share"] "en_US" 0%N).

(** [home] and [usr] registered at priorities 0 and 1, nothing indexed
    yet. *)
Definition registered : ObtLinkBase :=
  set_path_to_priority (linkbase_alloc "en_US" 0) (<[home := 0%Z]> {[usr := 1%Z]}).

(** A record that asks not to be displayed, and a world that holds it. *)
Definition hidden : desktop :=
  Desktop 102 (usr +:+ "/hidden.desktop") OBT_LINK_TYPE_APPLICATION [Utility] false.

Definition with_hidden : World :=
  world [(usr +:+ "/hidden.desktop", hidden)] [].

End Sample.
(* ===================================================================== *)
(** ** Facts about the monad and the list functions *)
(* ===================================================================== *)

Section Facts.
Context `{LinkApi}.

Lemma bind_unit {A B} (a : A) (f : A -> M B) : (mret a ≫= f) = f a.
Proof. unfold mbind, M_bind, mret, M_ret; simpl. by destruct (f a). Qed.


Lemma result_bind {A B} (m : M A) (f : A -> M B) :
  result (m ≫= f) =
  match result m with
  | Ok a => result (f a)
  | Undefined u => Undefined u
  end.
Proof. unfold mbind, M_bind. by destruct (result m). Qed.

Lemma trace_bind {A B} (m : M A) (f : A -> M B) :
  trace (m ≫= f) =
  trace m ++ match result m with
             | Ok a => trace (f a)
             | Undefined _ => []
             end.
Proof.
  unfold mbind, M_bind. destruct (result m); simpl; [done|].
  by rewrite app_nil_r.
Qed.


(** *** Cursors *)

Lemma insert_before_next {A} (x : A) (rest : list A) (it : GSListPtr) (data : A) :
  g_slist_insert_before (x :: rest) (g_slist_next it) data
  = x :: g_slist_insert_before rest it data.
Proof.
  destruct it as [|n| |]; simpl; try done.
  change (S n <? S (List.length rest))%nat with (n <? List.length rest)%nat.
  by destruct (n <? List.length rest)%nat.
Qed.



(** What [find_base_entry_priority] returns: NULL, with every priority
    below [pri]; or a node of the list, the first whose priority is at
    least [pri]. *)
Lemma find_base_entry_priority_spec (lst : list ObtLinkBaseEntry) (pri : gint) :
  (find_base_entry_priority lst pri = Null
   /\ Forall (fun e => (priority e < pri)%Z) lst)
  \/ (exists n e,
        find_base_entry_priority lst pri = Node n
        /\ lst !! n = Some e
        /\ (pri <= priority e)%Z
        /\ Forall (fun e' => (priority e' < pri)%Z) (take n lst)).
Proof.
  induction lst as [|a rest IH]; simpl.
  - left. by split.
  - destruct (priority a >=? pri)%Z eqn:Hge.
    + right. exists 0%nat, a. repeat split; [lia | constructor].
    + assert (priority a < pri)%Z by lia.
      destruct IH as [[-> Hall] | (n & e & -> & Hn & Hle & Hall)].
      * left. split; [done|]. by constructor.
      * right. exists (S n), e. repeat split; try done.
        simpl. by constructor.
Qed.

Lemma find_base_entry_path_spec (lst : list ObtLinkBaseEntry) (full_path : string) :
  find_base_entry_path lst full_path = Null
  \/ exists n e,
       find_base_entry_path lst full_path = Node n
       /\ lst !! n = Some e
       /\ obt_link_source_file (link e) = full_path.
Proof.
  induction lst as [|a rest IH]; simpl; [by left|].
  destruct (String.eqb (obt_link_source_file (link a)) full_path) eqn:Heq.
  - right. exists 0%nat, a. repeat split. by apply String.eqb_eq.
  - destruct IH as [-> | (n & e & -> & Hn & He)]; [by left|].
    right. by exists (S n), e.
Qed.

(** *** Ascending lists *)

Lemma ascending_cons (a : ObtLinkBaseEntry) (rest : list ObtLinkBaseEntry) :
  ascending (a :: rest) <->
  ascending rest /\ Forall (fun e => (priority a < priority e)%Z) rest.
Proof.
  unfold ascending; simpl. split.
  - intros Hs. apply StronglySorted_inv in Hs as [Hs Hall]. split; [done|].
    by rewrite List.Forall_map in Hall.
  - intros [Hs Hall]. constructor; [done|]. by rewrite List.Forall_map.
Qed.

Lemma insert_before_elem (lst : list ObtLinkBaseEntry) (it : GSListPtr)
    (data x : ObtLinkBaseEntry) :
  x ∈ g_slist_insert_before lst it data <-> x = data \/ x ∈ lst.
Proof.
  unfold g_slist_insert_before.
  assert (x ∈ lst ++ [data] <-> x = data \/ x ∈ lst) as Happ.
  { rewrite elem_of_app, list_elem_of_singleton. tauto. }
  destruct it as [|n| |]; try done.
  destruct (n <? List.length lst)%nat; [|done].
  rewrite elem_of_app, elem_of_cons.
  assert (x ∈ lst <-> x ∈ take n lst \/ x ∈ drop n lst) as ->
    by (by rewrite <- elem_of_app, take_drop).
  tauto.
Qed.

(** Inserting in front of the node found by [find_base_entry_priority]
    keeps the list ascending, unless that node already has the
    priority. *)
Lemma insert_keeps_ascending (lst : list ObtLinkBaseEntry) (pri : gint) (l : ObtLink) :
  ascending lst ->
  (forall n e, find_base_entry_priority lst pri = Node n ->
               lst !! n = Some e -> priority e <> pri) ->
  ascending (g_slist_insert_before lst (find_base_entry_priority lst pri) (Entry pri l)).
Proof.
  induction lst as [|a rest IH]; intros Hasc Hne; simpl.
  - apply ascending_cons. split; [constructor | constructor].
  - simpl in Hne. apply ascending_cons in Hasc as [Hrest Hall].
    destruct (priority a >=? pri)%Z eqn:Hge.
    + change (g_slist_insert_before (a :: rest) (Node 0) (Entry pri l))
        with (Entry pri l :: a :: rest).
      assert (priority a <> pri) by (by apply (Hne 0%nat a)).
      apply ascending_cons. split.
      * apply ascending_cons. by split.
      * constructor; simpl; [lia|].
        eapply Forall_impl; [exact Hall|]. simpl. intros; lia.
    + rewrite insert_before_next. apply ascending_cons. split.
      * apply IH; [done|]. intros n e Hfind Hn.
        apply (Hne (S n) e); [by rewrite Hfind | done].
      * apply Forall_forall. intros x Hx.
        apply insert_before_elem in Hx as [-> | Hx]; simpl; [lia|].
        rewrite Forall_forall in Hall. by apply Hall.
Qed.

(** In an ascending list that holds an entry of priority [pri], the node
    found for [pri] is that entry. *)
Lemma find_priority_present (lst : list ObtLinkBaseEntry) (pri : gint)
    (e : ObtLinkBaseEntry) :
  ascending lst -> e ∈ lst -> priority e = pri ->
  exists n e', find_base_entry_priority lst pri = Node n
               /\ lst !! n = Some e' /\ priority e' = pri.
Proof.
  induction lst as [|a rest IH]; intros Hasc Hin Hpri; [by inversion Hin|].
  apply ascending_cons in Hasc as [Hrest Hall]. simpl.
  destruct (priority a >=? pri)%Z eqn:Hge.
  - exists 0%nat, a. repeat split.
    apply elem_of_cons in Hin as [-> | Hin]; [done|].
    rewrite Forall_forall in Hall. specialize (Hall e Hin). lia.
  - apply elem_of_cons in Hin as [-> | Hin]; [lia|].
    destruct (IH Hrest Hin Hpri) as (n & e' & -> & Hn & He').
    by exists (S n), e'.
Qed.

(** *** The handler, case by case *)

Lemma result_notify (self : ObtLinkBase) (type : ObtLinkBaseUpdateType) (arg : gpointer) :
  result (notify self type arg) = Ok tt.
Proof. unfold notify. by destruct (update_func self). Qed.

(** The removal steps never come to an end: the node's data is an entry,
    and it is used as a link. *)
Lemma drop_entry_undefined (self : ObtLinkBase) (lst : list ObtLinkBaseEntry)
    (it : GSListPtr) :
  exists u, result (drop_entry self lst it) = Undefined u.
Proof.
  unfold drop_entry. rewrite result_bind.
  destruct (result (g_slist_data lst it)) as [e|u]; [|by exists u].
  rewrite result_bind, result_notify, result_bind. simpl. by eexists.
Qed.

Lemma drop_entry_wrong_object (self : ObtLinkBase) (lst : list ObtLinkBaseEntry)
    (n : nat) (e : ObtLinkBaseEntry) :
  lst !! n = Some e ->
  result (drop_entry self lst (Node n)) = Undefined WrongObject.
Proof.
  intros Hn. unfold drop_entry, g_slist_data. rewrite Hn, bind_unit.
  by rewrite result_bind, result_notify, result_bind.
Qed.

Lemma category_add_fields (self : ObtLinkBase) (cats : list GQuark) (l : ObtLink) :
  let self' := foldl (fun self cat => category_add self cat l) self cats in
  base self' = base self /\ path_to_priority self' = path_to_priority self
  /\ update_func self' = update_func self /\ update_data self' = update_data self
  /\ ref self' = ref self.
Proof.
  revert self. induction cats as [|c cats IH]; intros self; simpl; [done|].
  destruct (IH (category_add self c l)) as (-> & -> & -> & -> & ->). done.
Qed.

Lemma file_categories_fields (self : ObtLinkBase) (l : ObtLink) :
  base (file_categories self l) = base self
  /\ path_to_priority (file_categories self l) = path_to_priority self
  /\ update_func (file_categories self l) = update_func self
  /\ update_data (file_categories self l) = update_data self
  /\ ref (file_categories self l) = ref self.
Proof.
  unfold file_categories. case_decide; [|done]. apply category_add_fields.
Qed.

(** Every way in which the handler can return: it leaves the structure as
    it was, or it is an [OBT_WATCH_ADDED] for a registered directory whose
    file parses into a record to display, and the record is inserted in
    front of the node found for its priority. *)
Lemma update_returns (w : World) (base_path sub_path full_path : string)
    (type : ObtWatchNotifyType) (self self' : ObtLinkBase) :
  result (update w base_path sub_path full_path type self) = Ok self' ->
  self' = self
  \/ exists pri l,
       type = OBT_WATCH_ADDED
       /\ g_str_has_suffix sub_path ".desktop" = true
       /\ path_to_priority self !! base_path = Some pri
       /\ obt_link_from_ddfile w full_path (language self) (country self) (modifier self)
          = Some l
       /\ obt_link_display l (environments self) = true
       /\ let id := obt_link_id_from_ddfile sub_path in
          let lst := default [] (base self !! id) in
          let it := find_base_entry_priority lst pri in
          (forall n e, it = Node n -> lst !! n = Some e -> priority e <> pri)
          /\ self' = file_categories
               (set_base self (<[id := g_slist_insert_before lst it (Entry pri l)]>
                                 (base self))) l.
Proof.
  unfold update.
  destruct (g_str_has_suffix sub_path ".desktop") eqn:Hsuffix; simpl;
    [|intros [= <-]; by left].
  set (id := obt_link_id_from_ddfile sub_path).
  set (lst := default [] (base self !! id)).
  destruct type.
  - (* OBT_WATCH_ADDED *)
    unfold lookup_priority.
    destruct (path_to_priority self !! base_path) as [pri|] eqn:Hpri; [|done].
    simpl deref. rewrite bind_unit.
    destruct (find_base_entry_priority_spec lst pri)
      as [[Hit Hall] | (n & e & Hit & Hn & Hle & Hall)].
    + rewrite Hit. simpl is_null. cbv iota. rewrite bind_unit. unfold add_link.
      destruct (obt_link_from_ddfile w full_path _ _ _) as [l|] eqn:Hparse;
        [|intros [= <-]; by left].
      destruct (obt_link_display l (environments self)) eqn:Hshow; simpl negb; cbv iota;
        [|rewrite result_bind; simpl; intros [= <-]; by left].
      simpl deref. rewrite bind_unit, result_bind, result_notify.
      intros Hres. right. exists pri, l. repeat split; try done.
      * intros n e Hn. fold id lst in Hn. by rewrite Hit in Hn.
      * fold id lst. rewrite Hit. simpl in Hres. by inversion Hres.
    + rewrite Hit. simpl is_null. cbv iota. unfold g_slist_data. rewrite Hn.
      rewrite !bind_unit.
      destruct (priority e =? pri)%Z eqn:Heq; simpl negb; cbv iota;
        [intros [= <-]; by left|].
      unfold add_link.
      destruct (obt_link_from_ddfile w full_path _ _ _) as [l|] eqn:Hparse;
        [|intros [= <-]; by left].
      destruct (obt_link_display l (environments self)) eqn:Hshow; simpl negb; cbv iota;
        [|rewrite result_bind; simpl; intros [= <-]; by left].
      simpl deref. rewrite bind_unit, result_bind, result_notify.
      intros Hres. right. exists pri, l. repeat split; try done.
      * intros n' e' Hn' He'. fold id lst in Hn', He'.
        rewrite Hit in Hn'. injection Hn' as <-. rewrite Hn in He'.
        injection He' as <-. lia.
      * fold id lst. rewrite Hit. simpl in Hres. by inversion Hres.
  - (* OBT_WATCH_REMOVED *)
    destruct (is_null (find_base_entry_path lst full_path));
      [rewrite bind_unit; intros [= <-]; by left|].
    rewrite !result_bind.
    destruct (drop_entry_undefined self lst (find_base_entry_path lst full_path))
      as [u ->]. done.
  - (* OBT_WATCH_MODIFIED *)
    destruct (is_null (find_base_entry_path lst full_path));
      [rewrite bind_unit; intros [= <-]; by left|].
    rewrite !result_bind.
    destruct (drop_entry_undefined self lst (find_base_entry_path lst full_path))
      as [u ->]. done.
  - (* OBT_WATCH_SELF_REMOVED *)
    rewrite bind_unit. intros [= <-]. by left.
Qed.

Lemma update_keeps_fields (w : World) (base_path sub_path full_path : string)
    (type : ObtWatchNotifyType) (self self' : ObtLinkBase) :
  result (update w base_path sub_path full_path type self) = Ok self' ->
  path_to_priority self' = path_to_priority self
  /\ update_func self' = update_func self
  /\ update_data self' = update_data self
  /\ ref self' = ref self.
Proof.
  intros Hres. apply update_returns in Hres as [-> | (pri & l & _ & _ & _ & _ & _ & _ & ->)];
    [done|].
  by destruct (file_categories_fields
    (set_base self (<[obt_link_id_from_ddfile sub_path :=
       g_slist_insert_before (default [] (base self !! obt_link_id_from_ddfile sub_path))
         (find_base_entry_priority
            (default [] (base self !! obt_link_id_from_ddfile sub_path)) pri)
         (Entry pri l)]> (base self))) l) as (_ & -> & -> & -> & ->).
Qed.

Lemma update_keeps_ascending (w : World) (base_path sub_path full_path : string)
    (type : ObtWatchNotifyType) (self self' : ObtLinkBase) :
  base_ascending self ->
  result (update w base_path sub_path full_path type self) = Ok self' ->
  base_ascending self'.
Proof.
  intros Hasc Hres.
  apply update_returns in Hres as [-> | (pri & l & _ & _ & _ & _ & _ & Hne & ->)]; [done|].
  intros id lst. destruct (file_categories_fields
    (set_base self (<[obt_link_id_from_ddfile sub_path :=
       g_slist_insert_before (default [] (base self !! obt_link_id_from_ddfile sub_path))
         (find_base_entry_priority
            (default [] (base self !! obt_link_id_from_ddfile sub_path)) pri)
         (Entry pri l)]> (base self))) l) as (-> & _).
  simpl. rewrite lookup_insert. case_decide as Hid.
  - intros [= <-]. apply insert_keeps_ascending; [|done].
    destruct (base self !! obt_link_id_from_ddfile sub_path) as [lst0|] eqn:Hlst; simpl.
    + by apply (Hasc _ _ Hlst).
    + constructor.
  - apply Hasc.
Qed.

Lemma unref_returns (self self' : ObtLinkBase) :
  result (obt_linkbase_unref self) = Ok (Some self') ->
  self' = set_ref self (ref self - 1)%Z.
Proof.
  unfold obt_linkbase_unref. simpl ref.
  destruct (ref self - 1 <? 1)%Z.
  - rewrite result_bind. by destruct (result _).
  - by intros [= <-].
Qed.

(** As long as the calls made on it are defined, the structure keeps every
    list of [base] in strictly ascending order of priority. *)
Lemma reachable_ascending (self : ObtLinkBase) :
  reachable self -> base_ascending self.
Proof.
  induction 1 as [locale env | self bp pri _ IH | self ev self' _ IH Hres
                 | self func data _ IH | self _ IH | self self' _ IH Hres].
  - intros id lst. simpl. by rewrite lookup_empty.
  - exact IH.
  - by apply (update_keeps_ascending _ _ _ _ _ _ _ IH Hres).
  - exact IH.
  - exact IH.
  - apply unref_returns in Hres as ->. exact IH.
Qed.

(** *** The category index on defined runs *)

Lemma category_add_elem (self : ObtLinkBase) (c cat : GQuark) (l x : ObtLink) :
  x ∈ obt_linkbase_category (category_add self c l) cat
  <-> x ∈ obt_linkbase_category self cat \/ (x = l /\ cat = c).
Proof.
  unfold obt_linkbase_category, category_add, g_slist_prepend. simpl.
  rewrite lookup_insert. case_decide as Hc.
  - subst cat. rewrite elem_of_cons.
    destruct (categories self !! c); intuition congruence.
  - intuition congruence.
Qed.

Lemma categories_add_elem (self : ObtLinkBase) (cats : list GQuark) (cat : GQuark)
    (l x : ObtLink) :
  x ∈ obt_linkbase_category (foldl (fun self c => category_add self c l) self cats) cat
  <-> x ∈ obt_linkbase_category self cat \/ (x = l /\ cat ∈ cats).
Proof.
  revert self. induction cats as [|c cats IH]; intros self; simpl.
  - rewrite elem_of_nil. tauto.
  - rewrite IH, category_add_elem, elem_of_cons. tauto.
Qed.

Lemma update_keeps_consistent (w : World) (base_path sub_path full_path : string)
    (type : ObtWatchNotifyType) (self self' : ObtLinkBase) :
  categories_consistent self ->
  result (update w base_path sub_path full_path type self) = Ok self' ->
  categories_consistent self'.
Proof.
  intros Hcons Hres.
  apply update_returns in Hres as [-> | (pri & l & _ & _ & _ & _ & _ & _ & ->)]; [done|].
  set (id := obt_link_id_from_ddfile sub_path).
  set (lst := default [] (base self !! id)).
  set (lst' := g_slist_insert_before lst (find_base_entry_priority lst pri) (Entry pri l)).
  set (self1 := set_base self (<[id := lst']> (base self))).
  assert (forall x, indexed (file_categories self1 l) x <-> indexed self x \/ x = l)
    as Hindexed.
  { intros x. unfold indexed.
    destruct (file_categories_fields self1 l) as (-> & _). simpl. split.
    - intros (id0 & lst0 & e & Hl & He & Hx). rewrite lookup_insert in Hl.
      case_decide as Hid.
      + injection Hl as <-. apply insert_before_elem in He as [-> | He]; [by right|].
        left. exists id, lst, e. split; [|done].
        subst lst. destruct (base self !! id); [done | by inversion He].
      + left. by exists id0, lst0, e.
    - intros [(id0 & lst0 & e & Hl & He & Hx) | ->].
      + destruct (decide (id = id0)) as [<- | Hid].
        * exists id, lst', e. rewrite lookup_insert_eq. split; [done|]. split; [|done].
          apply insert_before_elem. right. subst lst. by rewrite Hl.
        * exists id0, lst0, e. by rewrite lookup_insert_ne.
      + exists id, lst', (Entry pri l). rewrite lookup_insert_eq.
        split; [done|]. split; [|done]. apply insert_before_elem. by left. }
  intros cat x. rewrite Hindexed. unfold file_categories.
  case_decide as Happ.
  - rewrite categories_add_elem.
    change (obt_linkbase_category self1 cat) with (obt_linkbase_category self cat).
    rewrite (Hcons cat x). split.
    + intros [(Hx & Hty & Hcat) | [-> Hcat]]; tauto.
    + intros ([Hx | ->] & Hty & Hcat); tauto.
  - change (obt_linkbase_category self1 cat) with (obt_linkbase_category self cat).
    rewrite (Hcons cat x). split; [tauto|].
    intros ([Hx | ->] & Hty & Hcat); tauto.
Qed.

(** As long as the calls made on it are defined, the structure files under
    a category exactly the applications that are indexed and declare it,
    and stores no empty list. *)
Lemma reachable_consistent (self : ObtLinkBase) :
  reachable self -> categories_consistent self.
Proof.
  induction 1 as [locale env | self bp pri _ IH | self ev self' _ IH Hres
                 | self func data _ IH | self _ IH | self self' _ IH Hres].
  - intros cat l. unfold obt_linkbase_category, indexed. simpl.
    rewrite lookup_empty, elem_of_nil. split; [done|].
    intros ((id & lst & e & Hl & _) & _). by rewrite lookup_empty in Hl.
  - exact IH.
  - by apply (update_keeps_consistent _ _ _ _ _ _ _ IH Hres).
  - exact IH.
  - exact IH.
  - apply unref_returns in Hres as ->. exact IH.
Qed.

Lemma reachable_nonempty (self : ObtLinkBase) :
  reachable self -> base_nonempty self.
Proof.
  induction 1 as [locale env | self bp pri _ IH | self ev self' _ IH Hres
                 | self func data _ IH | self _ IH | self self' _ IH Hres];
    try exact IH.
  - intros id lst. simpl. by rewrite lookup_empty.
  - apply update_returns in Hres as [-> | (pri & l & _ & _ & _ & _ & _ & _ & ->)];
      [done|].
    intros id lst. destruct (file_categories_fields
      (set_base self (<[obt_link_id_from_ddfile (ev_sub_path ev) :=
         g_slist_insert_before
           (default [] (base self !! obt_link_id_from_ddfile (ev_sub_path ev)))
           (find_base_entry_priority
              (default [] (base self !! obt_link_id_from_ddfile (ev_sub_path ev))) pri)
           (Entry pri l)]> (base self))) l) as (-> & _).
    simpl. rewrite lookup_insert. case_decide as Hid; [|apply IH].
    intros [= <-] Hnil.
    assert (Entry pri l ∈ g_slist_insert_before
              (default [] (base self !! obt_link_id_from_ddfile (ev_sub_path ev)))
              (find_base_entry_priority
                 (default [] (base self !! obt_link_id_from_ddfile (ev_sub_path ev))) pri)
              (Entry pri l)) as Hin by (apply insert_before_elem; by left).
    rewrite Hnil in Hin. by inversion Hin.
  - apply unref_returns in Hres as ->. exact IH.
Qed.

(** *** Callbacks *)

Lemma callbacks_app (t1 t2 : list effect) :
  callbacks (t1 ++ t2) = callbacks t1 ++ callbacks t2.
Proof. apply List.filter_app. Qed.

Lemma add_link_quiet (w : World) (full_path id : string)
    (lst : list ObtLinkBaseEntry) (it : GSListPtr) (pri : pointer gint)
    (self : ObtLinkBase) :
  update_func self = None ->
  callbacks (trace (add_link w full_path id lst it pri self)) = [].
Proof.
  intros Hnone. unfold add_link, notify. rewrite Hnone.
  destruct (obt_link_from_ddfile w full_path _ _ _) as [l|]; [|done].
  destruct (obt_link_display l (environments self)); [|done].
  by destruct pri.
Qed.

Lemma drop_entry_quiet (self : ObtLinkBase) (lst : list ObtLinkBaseEntry)
    (it : GSListPtr) :
  update_func self = None ->
  callbacks (trace (drop_entry self lst it)) = [].
Proof.
  intros Hnone. unfold drop_entry, notify, g_slist_data. rewrite Hnone.
  destruct it as [|n| |]; try done.
  by destruct (lst !! n).
Qed.

(** With no callback registered, one run of the handler calls none,
    whether it returns or not. *)
Lemma update_quiet (w : World) (base_path sub_path full_path : string)
    (type : ObtWatchNotifyType) (self : ObtLinkBase) :
  update_func self = None ->
  callbacks (trace (update w base_path sub_path full_path type self)) = [].
Proof.
  intros Hnone. unfold update.
  destruct (g_str_has_suffix sub_path ".desktop"); simpl; [|done].
  set (id := obt_link_id_from_ddfile sub_path).
  set (lst := default [] (base self !! id)).
  destruct type.
  - unfold lookup_priority.
    destruct (path_to_priority self !! base_path) as [pri|]; [|done].
    simpl deref. rewrite bind_unit.
    destruct (is_null (find_base_entry_priority lst pri)).
    + rewrite bind_unit. by apply add_link_quiet.
    + unfold g_slist_data.
      destruct (find_base_entry_priority lst pri) as [|n| |]; try done.
      destruct (lst !! n) as [e|]; [|done].
      rewrite !bind_unit. destruct (negb _); [|done]. by apply add_link_quiet.
  - destruct (is_null (find_base_entry_path lst full_path)); [by rewrite bind_unit|].
    rewrite !trace_bind, !result_bind.
    destruct (drop_entry_undefined self lst (find_base_entry_path lst full_path))
      as [u Hu].
    rewrite Hu, !app_nil_r. by apply drop_entry_quiet.
  - destruct (is_null (find_base_entry_path lst full_path)); [by rewrite bind_unit|].
    rewrite !trace_bind, !result_bind.
    destruct (drop_entry_undefined self lst (find_base_entry_path lst full_path))
      as [u Hu].
    rewrite Hu, !app_nil_r. by apply drop_entry_quiet.
  - by rewrite bind_unit.
Qed.

(** An [OBT_WATCH_ADDED] for a registered directory always returns. *)
Lemma update_added_defined (w : World) (base_path sub_path full_path : string)
    (self : ObtLinkBase) (pri : gint) :
  path_to_priority self !! base_path = Some pri ->
  exists self', result (update w base_path sub_path full_path OBT_WATCH_ADDED self)
                = Ok self'.
Proof.
  intros Hpri. unfold update.
  destruct (g_str_has_suffix sub_path ".desktop"); simpl; [|by eexists].
  unfold lookup_priority. rewrite Hpri. simpl deref. rewrite bind_unit.
  set (lst := default [] (base self !! obt_link_id_from_ddfile sub_path)).
  assert (forall it add,
    exists self', result (if add : bool
                          then add_link w full_path (obt_link_id_from_ddfile sub_path)
                                 lst it (Ptr pri) self
                          else mret self) = Ok self') as Hadd.
  { intros it [|]; [|by eexists]. unfold add_link.
    destruct (obt_link_from_ddfile w full_path _ _ _) as [l|]; [|by eexists].
    destruct (obt_link_display l (environments self)); simpl negb; cbv iota.
    - simpl deref. rewrite bind_unit, result_bind, result_notify. by eexists.
    - rewrite result_bind. by eexists. }
  destruct (find_base_entry_priority_spec lst pri)
    as [[-> _] | (n & e & -> & Hn & _ & _)]; simpl is_null; cbv iota.
  - rewrite bind_unit. apply (Hadd Null true).
  - unfold g_slist_data. rewrite Hn, !bind_unit. apply Hadd.
Qed.

Lemma foldM_invariant {A B} (f : B -> A -> M B) (I : B -> Prop) (l : list A) (b : B) :
  I b ->
  (forall b a, I b ->
     exists b', result (f b a) = Ok b' /\ I b' /\ callbacks (trace (f b a)) = []) ->
  exists b', result (foldM f b l) = Ok b' /\ I b'
             /\ callbacks (trace (foldM f b l)) = [].
Proof.
  intros Hb Hstep. revert b Hb.
  induction l as [|a l IH]; intros b Hb; simpl.
  - by exists b.
  - destruct (Hstep b a Hb) as (b1 & Hres & Hb1 & Hquiet).
    destruct (IH b1 Hb1) as (b2 & Hres2 & Hb2 & Hquiet2).
    exists b2. rewrite result_bind, trace_bind, Hres, callbacks_app, Hquiet, Hquiet2.
    done.
Qed.

(** *** Construction *)

Lemma watch_add_spec (w : World) (base_path : string) (self : ObtLinkBase) (pri : gint) :
  path_to_priority self !! base_path = Some pri ->
  update_func self = None ->
  reachable self ->
  exists self',
    result (obt_watch_add w base_path self) = Ok self'
    /\ (update_func self' = None /\ ref self' = ref self /\ reachable self')
    /\ callbacks (trace (obt_watch_add w base_path self)) = [].
Proof.
  intros Hpri Hnone Hreach. unfold obt_watch_add.
  destruct (foldM_invariant
    (fun self f => update w base_path (fst f) (snd f) OBT_WATCH_ADDED self)
    (fun s => path_to_priority s !! base_path = Some pri
              /\ update_func s = None /\ ref s = ref self /\ reachable s)
    (existing w base_path) self) as (self' & Hres & (_ & Hf & Hr & Hreach') & Hquiet).
  - done.
  - intros s [sub_path full_path] (Hs & Hsf & Hsr & Hsreach). simpl.
    destruct (update_added_defined w base_path sub_path full_path s pri Hs)
      as [s' Hs'].
    exists s'. split; [done|].
    destruct (update_keeps_fields _ _ _ _ _ _ _ Hs') as (Hp & Hu & _ & Href).
    repeat split.
    + by rewrite Hp.
    + by rewrite Hu.
    + by rewrite Href.
    + by apply (reach_update s (Event w base_path sub_path full_path OBT_WATCH_ADDED)).
    + by apply update_quiet.
  - exists self'. rewrite result_bind, trace_bind. simpl.
    by rewrite Hres.
Qed.

(** [obt_linkbase_new] always returns; it calls no callback, leaves none
    registered, leaves the count at the zero [g_slice_new0] put there, and
    its result is a reachable state. *)
Lemma new_spec (w : World) (data_dirs : list string) (locale : string) (env : guint) :
  exists self,
    result (obt_linkbase_new w data_dirs locale env) = Ok self
    /\ callbacks (trace (obt_linkbase_new w data_dirs locale env)) = []
    /\ update_func self = None
    /\ ref self = 0%Z
    /\ reachable self.
Proof.
  unfold obt_linkbase_new.
  destruct (foldM_invariant (register_dir w)
    (fun st => update_func (fst st) = None /\ ref (fst st) = 0%Z /\ reachable (fst st))
    data_dirs (linkbase_alloc locale env, 0%Z))
    as ([self pri] & Hres & (Hf & Hr & Hreach) & Hquiet).
  - simpl. repeat split. constructor.
  - intros [s pri] dir (Hsf & Hsr & Hsreach). cbn [fst] in Hsf, Hsr, Hsreach.
    unfold register_dir.
    destruct (path_to_priority s !! dir).
    + by exists (s, pri).
    + set (bp := g_build_filename w dir "applications").
      set (s1 := set_path_to_priority s (<[bp := pri]> (path_to_priority s))).
      destruct (watch_add_spec w bp s1 pri) as (s2 & Hres & (Hf2 & Hr2 & Hreach2) & Hq).
      * simpl. apply lookup_insert_eq.
      * done.
      * by constructor.
      * exists (s2, (pri + 1)%Z). rewrite result_bind, trace_bind, Hres. simpl.
        rewrite app_nil_r. repeat split; try done. by rewrite Hr2.
  - exists self. rewrite result_bind, trace_bind, Hres. simpl. rewrite app_nil_r.
    done.
Qed.

(** *** Reference counts *)

Lemma foldM_cons {A B} (f : B -> A -> M B) (b : B) (a : A) (l : list A) :
  foldM f b (a :: l) = f b a ≫= fun b' => foldM f b' l.
Proof. reflexivity. Qed.



Lemma base_entry_list_free_returns (value : list ObtLinkBaseEntry) :
  result (base_entry_list_free value) = Ok tt.
Proof.
  unfold base_entry_list_free.
  induction value as [|e es IH]; [done|].
  rewrite foldM_cons, result_bind. exact IH.
Qed.

Lemma base_free_returns (l : list (string * list ObtLinkBaseEntry)) :
  result (foldM (fun _ kv => base_entry_list_free (snd kv)) tt l) = Ok tt.
Proof.
  induction l as [|kv l IH]; [done|].
  rewrite foldM_cons, result_bind, base_entry_list_free_returns. exact IH.
Qed.

Lemma release_last (self : ObtLinkBase) :
  (ref self <= 1)%Z ->
  result (obt_linkbase_unref self) = Ok None.
Proof.
  intros Href. unfold obt_linkbase_unref. cbn [ref set_ref].
  destruct (Z.ltb_spec (ref self - 1) 1); [|lia].
  by rewrite result_bind, base_free_returns.
Qed.


End Facts.

(* ===================================================================== *)
(** ** The properties of the specification *)
(* ===================================================================== *)

Import Sample.

(** The two sample structures are what [obt_linkbase_new] returned. *)
Lemma created_one_reachable : reachable created_one.
Proof.
  destruct (new_spec one_dir ["/usr/share"] "en_US" 0%N) as (self & Hres & _ & _ & _ & Hreach).
  unfold created_one, state_of. by rewrite Hres.
Qed.

Lemma created_two_reachable : reachable created_two.
Proof.
  destruct (new_spec two_dirs ["/home/u/.local/share"; "/usr/share"] "en_US" 0%N)
    as (self & Hres & _ & _ & _ & Hreach).
  unfold created_two, state_of. by rewrite Hres.
Qed.

(** *** Duplicate notifications *)

(** Claim C6 (duplicate add rejection).  An [OBT_WATCH_ADDED] for a
    directory whose priority is already present in the list of the file's
    id changes nothing: the handler returns the structure it was given and
    has no effect on the outside, in particular it calls no callback. *)
Theorem duplicate_add_is_noop `{LinkApi} (w : World)
    (base_path sub_path full_path : string) (self : ObtLinkBase)
    (e : ObtLinkBaseEntry) :
  reachable self ->
  e ∈ default [] (base self !! obt_link_id_from_ddfile sub_path) ->
  path_to_priority self !! base_path = Some (priority e) ->
  update w base_path sub_path full_path OBT_WATCH_ADDED self = mret self.
Proof.
  intros Hreach He Hpri. unfold update.
  destruct (g_str_has_suffix sub_path ".desktop"); simpl; [|done].
  unfold lookup_priority. rewrite Hpri. simpl deref. rewrite bind_unit.
  set (lst := default [] (base self !! obt_link_id_from_ddfile sub_path)) in *.
  assert (ascending lst) as Hasc.
  { subst lst. destruct (base self !! obt_link_id_from_ddfile sub_path) as [l0|] eqn:Hl0.
    - by apply (reachable_ascending self Hreach _ _ Hl0).
    - constructor. }
  destruct (find_priority_present lst (priority e) e Hasc He eq_refl)
    as (n & e' & -> & Hn & He').
  simpl is_null. cbv iota. unfold g_slist_data. rewrite Hn, !bind_unit.
  rewrite He', Z.eqb_refl. done.
Qed.

Lemma duplicate_add_is_noop_witness :
  reachable created_two
  /\ update two_dirs home "gedit.desktop" (home +:+ "/gedit.desktop")
       OBT_WATCH_ADDED created_two = mret created_two.
Proof.
  split; [exact created_two_reachable|].
  apply (duplicate_add_is_noop two_dirs home "gedit.desktop" (home +:+ "/gedit.desktop")
           created_two (entry 0 gedit_home)).
  - exact created_two_reachable.
  - vm_compute. apply list_elem_of_here.
  - vm_compute. reflexivity.
Defined.

(** *** A modification of a file that is not indexed *)

(** Claim C4, as the handler has it.  An [OBT_WATCH_MODIFIED] for a
    description file of which the list of its id holds no entry does
    nothing at all: [add] stays FALSE, so the file is not parsed, nothing is
    inserted and no callback is called. *)
Theorem modified_unknown_is_noop `{LinkApi} (w : World)
    (base_path sub_path full_path : string) (self : ObtLinkBase) :
  g_str_has_suffix sub_path ".desktop" = true ->
  find_base_entry_path (default [] (base self !! obt_link_id_from_ddfile sub_path))
    full_path = Null ->
  update w base_path sub_path full_path OBT_WATCH_MODIFIED self = mret self.
Proof.
  intros Hsuffix Hfind. unfold update. rewrite Hsuffix. simpl negb. cbv iota.
  rewrite Hfind. simpl is_null. cbv iota. by rewrite bind_unit.
Qed.

(** A structure with [usr] registered, nothing indexed and a callback
    set, as it is after a creation over an empty directory. *)
Lemma modified_unknown_is_noop_witness :
  let self :=
    obt_linkbase_set_update_func
      (set_path_to_priority (linkbase_alloc "en_US" 0) {[usr := 0%Z]}) (Some 7%N) 0 in
  update one_dir usr "gedit.desktop" (usr +:+ "/gedit.desktop") OBT_WATCH_MODIFIED self
  = mret self.
Proof.
  intros self.
  apply (modified_unknown_is_noop one_dir usr "gedit.desktop"
           (usr +:+ "/gedit.desktop") self).
  - vm_compute. reflexivity.
  - vm_compute. reflexivity.
Defined.

(** Claim C4, as the specification states it, fails: in that same
    structure the file parses into a record that is to be displayed, yet
    the modification neither inserts an entry nor calls the callback. *)
Lemma modified_unknown_does_not_add :
  let self :=
    obt_linkbase_set_update_func
      (set_path_to_priority (linkbase_alloc "en_US" 0) {[usr := 0%Z]}) (Some 7%N) 0 in
  let full_path := usr +:+ "/gedit.desktop" in
  let run := update one_dir usr "gedit.desktop" full_path OBT_WATCH_MODIFIED self in
  ~ (g_str_has_suffix "gedit.desktop" ".desktop" = true ->
     find_base_entry_path (default [] (base self !! "gedit.desktop")) full_path = Null ->
     forall l : desktop,
       obt_link_from_ddfile one_dir full_path (language self) (country self)
         (modifier self) = Some l ->
       obt_link_display l (environments self) = true ->
       exists self',
         result run = Ok self'
         /\ (exists e, e ∈ default [] (base self' !! "gedit.desktop") /\ link e = l)
         /\ UpdateFunc 7 OBT_LINKBASE_ADDED (LinkPtr l) 0 ∈ trace run).
Proof.
  intros self full_path run Hclaim.
  destruct (Hclaim eq_refl eq_refl gedit_usr eq_refl eq_refl)
    as (self' & _ & _ & Hcall).
  vm_compute in Hcall. by apply elem_of_nil in Hcall.
Qed.

(** *** Callbacks *)

(** Claim C10.  The callback field is unset when the structure is
    allocated; a run of the handler on a structure with no callback calls
    none, whether the run is defined or not; and [obt_linkbase_new], which
    feeds the files already present through the handler, returns with no
    callback called and none registered. *)
Theorem no_callback_unless_registered `{LinkApi} :
  (forall locale env, update_func (linkbase_alloc locale env) = None)
  /\ (forall w base_path sub_path full_path type self,
        update_func self = None ->
        callbacks (trace (update w base_path sub_path full_path type self)) = [])
  /\ (forall w data_dirs locale env,
        callbacks (trace (obt_linkbase_new w data_dirs locale env)) = []
        /\ exists self,
             result (obt_linkbase_new w data_dirs locale env) = Ok self
             /\ update_func self = None).
Proof.
  split; [done|]. split.
  - intros. by apply update_quiet.
  - intros w data_dirs locale env.
    destruct (new_spec w data_dirs locale env) as (self & Hres & Hquiet & Hnone & _).
    split; [done|]. by exists self.
Qed.

Lemma no_callback_unless_registered_witness :
  update_func created_one = None
  /\ callbacks (trace (update one_dir usr "gedit.desktop" (usr +:+ "/gedit.desktop")
                         OBT_WATCH_REMOVED created_one)) = []
  /\ callbacks (trace (obt_linkbase_new two_dirs
                         ["/home/u/.local/share"; "/usr/share"] "en_US" 0)) = [].
Proof.
  destruct (@no_callback_unless_registered api) as (_ & Hupdate & Hnew).
  split; [by vm_compute|]. split.
  - apply Hupdate. by vm_compute.
  - apply Hnew.
Defined.

(** *** Removal and modification of an indexed file *)

Section Divergences.
Context `{LinkApi}.

(** Property X26. A file that is indexed and is reported removed or modified: the
    handler takes the node's data, an entry, for the link (lines 177 and
    213) and has it read as one by [obt_link_type] (lines 183 and 219). *)
Lemma indexed_file_undefined (w : World) (base_path sub_path full_path : string)
    (type : ObtWatchNotifyType) (self : ObtLinkBase) :
  g_str_has_suffix sub_path ".desktop" = true ->
  type = OBT_WATCH_REMOVED \/ type = OBT_WATCH_MODIFIED ->
  find_base_entry_path (default [] (base self !! obt_link_id_from_ddfile sub_path))
    full_path <> Null ->
  result (update w base_path sub_path full_path type self) = Undefined WrongObject.
Proof.
  intros Hsuffix Htype Hfound. unfold update. rewrite Hsuffix. simpl negb. cbv iota.
  set (lst := default [] (base self !! obt_link_id_from_ddfile sub_path)) in *.
  destruct (find_base_entry_path_spec lst full_path) as [Hnull | (n & e & Hit & Hn & _)];
    [done|].
  rewrite Hit. simpl is_null. cbv iota.
  destruct Htype as [-> | ->];
    by rewrite !result_bind, (drop_entry_wrong_object self lst n e Hn).
Qed.

(** [category_remove] looks for the pointer it is given among the links
    of the category; given an entry, it walks off the end of the list. *)
Lemma category_walk_entry (links : list ObtLink) (e : ObtLinkBaseEntry) :
  category_walk links (EntryPtr e) = Null.
Proof.
  induction links as [|l links IH]; [done|].
  cbn [category_walk].
  destruct (decide (LinkPtr l = EntryPtr e)) as [Heq|_]; [discriminate|].
  by rewrite IH.
Qed.

Lemma category_remove_entry (lb : ObtLinkBase) (cat : GQuark) (e : ObtLinkBaseEntry) :
  result (category_remove lb cat (EntryPtr e)) = Undefined NullDereference.
Proof.
  unfold category_remove. destruct (categories lb !! cat); [|done].
  by rewrite category_walk_entry.
Qed.

(** When the file does not parse, the add steps leave without storing
    anything: [base] is neither written nor cleared. *)
Lemma add_link_parse_failure (w : World) (full_path id : string)
    (lst : list ObtLinkBaseEntry) (it : GSListPtr) (pri : pointer gint)
    (self : ObtLinkBase) :
  obt_link_from_ddfile w full_path (language self) (country self) (modifier self) = None ->
  add_link w full_path id lst it pri self = mret self.
Proof. intros Hparse. unfold add_link. by rewrite Hparse. Qed.

(** The [OBT_WATCH_MODIFIED] case never assigns [priority]; the add steps
    read through it (line 261). *)
Lemma add_link_unassigned_priority (w : World) (full_path id : string)
    (lst : list ObtLinkBaseEntry) (it : GSListPtr) (self : ObtLinkBase) (l : ObtLink) :
  obt_link_from_ddfile w full_path (language self) (country self) (modifier self)
    = Some l ->
  obt_link_display l (environments self) = true ->
  result (add_link w full_path id lst it Wild self) = Undefined UninitialisedRead.
Proof. intros Hparse Hshow. unfold add_link. by rewrite Hparse, Hshow. Qed.

(** Inserting in front of a node that is no longer in the list appends. *)
Lemma insert_before_released {A} (l : list A) (data : A) :
  g_slist_insert_before l Released data = l ++ [data].
Proof. reflexivity. Qed.

(** *** Reference counts *)



End Divergences.

(** *** The charset segment of a locale *)

(** The loop that is to step over the charset starts on the "." itself,
    which is not a letter: it stops at once. *)
Lemma charset_loop_stuck (rest : string) :
  Locale.scan (fun c => Locale.is_char c "@") (String "." rest) = (0%nat, false).
Proof. reflexivity. Qed.

(** *** The handler on the sample directories *)

(** Claim C1 (the category index follows the primary index).  After its
    creation over [usr] the structure files gedit under Utility.  When the
    file is reported removed the handler has no defined behaviour: what it
    passes on as the link is the entry.  [category_remove], given that
    pointer, cannot find it among the links of any category. *)
Theorem removed_application_not_unfiled :
  gedit_usr ∈ obt_linkbase_category created_one Utility
  /\ result (update one_dir usr "gedit.desktop" (usr +:+ "/gedit.desktop")
               OBT_WATCH_REMOVED created_one) = Undefined WrongObject
  /\ result (category_remove created_one Utility (EntryPtr (entry 0 gedit_usr)))
     = Undefined NullDereference.
Proof.
  split; [vm_compute; apply list_elem_of_here|].
  split; [by vm_compute|]. apply category_remove_entry.
Qed.

(** Claim C2 (lists sorted by priority).  The structure created over
    [home] and [usr] holds gedit at priorities 0 and 1.  When the copy in
    [home] is reported modified the handler has no defined behaviour.  The
    insertion it is heading for is in front of the node it has just
    released, that is at the end of the list, whatever the priority: with
    the priority of [home] the list would read 1, 0. *)
Theorem modified_entry_loses_order :
  base created_two !! "gedit.desktop" = Some [entry 0 gedit_home; entry 1 gedit_usr]
  /\ result (update two_dirs home "gedit.desktop" (home +:+ "/gedit.desktop")
               OBT_WATCH_MODIFIED created_two) = Undefined WrongObject
  /\ g_slist_insert_before
       (g_slist_delete_link [entry 0 gedit_home; entry 1 gedit_usr] (Node 0))
       Released (entry 0 gedit_home)
     = [entry 1 gedit_usr; entry 0 gedit_home]
  /\ ~ ascending [entry 1 gedit_usr; entry 0 gedit_home].
Proof.
  split; [by vm_compute|]. split; [by vm_compute|]. split; [done|].
  intros Hasc. apply ascending_cons in Hasc as [_ Hall].
  apply Forall_cons in Hall as [Hlt _]. simpl in Hlt. lia.
Qed.

(** Claim C3 (no empty list is stored).  gedit is the only entry of its id.
    Reported removed, or modified when it no longer parses, the handler has
    no defined behaviour.  In the second case the add steps that are to
    store the shortened list return at the failed parse: nothing removes
    the id from [base]. *)
Theorem sole_entry_not_deleted :
  base created_one !! "gedit.desktop" = Some [entry 0 gedit_usr]
  /\ result (update one_dir usr "gedit.desktop" (usr +:+ "/gedit.desktop")
               OBT_WATCH_REMOVED created_one) = Undefined WrongObject
  /\ result (update one_dir_broken usr "gedit.desktop" (usr +:+ "/gedit.desktop")
               OBT_WATCH_MODIFIED created_one) = Undefined WrongObject
  /\ add_link one_dir_broken (usr +:+ "/gedit.desktop") "gedit.desktop"
       [] Released Wild created_one = mret created_one.
Proof. repeat split; by vm_compute. Qed.

(** Claim C5 (a modified file is inserted again at its directory's
    priority).  gedit is indexed and is reported modified; it still parses
    and is to be displayed.  The handler has no defined behaviour; the add
    steps it is heading for read the priority through a pointer that this
    case of the [switch] never assigns. *)
Theorem modified_entry_priority_unassigned :
  result (update one_dir usr "gedit.desktop" (usr +:+ "/gedit.desktop")
            OBT_WATCH_MODIFIED created_one) = Undefined WrongObject
  /\ result (add_link one_dir (usr +:+ "/gedit.desktop") "gedit.desktop"
               [] Released Wild created_one) = Undefined UninitialisedRead.
Proof. split; by vm_compute. Qed.

(** *** Reference counts, locale and directories on sample inputs *)

(** Claim C7 (reference counting).  Two owners: the creator and one call
    of [obt_linkbase_ref].  The first release already frees the structure
    and releases its link; the second release is on freed memory. *)
Theorem first_release_frees :
  ref created_one = 0%Z
  /\ client_run (Some created_one) [Retain; Release]
     = Run [LinkUnref gedit_usr] (Ok None)
  /\ result (client_run (Some created_one) [Retain; Release; Release])
     = Undefined UseAfterFree.
Proof. repeat split; by vm_compute. Qed.

(** Claim C8 (locale examples).  "fr" gives the language alone.
    "en_US.UTF-8@euro" gives language "en" and country "US" but no
    modifier; without the charset the modifier is found. *)
Theorem locale_examples :
  Locale.parse "fr" = Locale.Parts (Some "fr") None None
  /\ Locale.parse "en_US.UTF-8@euro" = Locale.Parts (Some "en") (Some "US") None
  /\ Locale.parse "en_US@euro" = Locale.Parts (Some "en") (Some "US") (Some "euro").
Proof. repeat split. Qed.

(** Claim C9 (one priority per watched path).  The same data directory
    listed twice: the test for a registered directory looks up the
    directory, the table is keyed by the path with "applications" joined
    to it, so the path is registered and watched a second time and its
    priority goes from 0 to 1.  A directory that ends in "/applications"
    below an earlier one is, on the contrary, passed over. *)
Theorem directory_listed_twice :
  let twice := obt_linkbase_new (world [] []) ["/usr/share"; "/usr/share"] "" 0 in
  let nested := obt_linkbase_new (world [] []) ["/a"; "/a/applications"] "" 0 in
  trace twice = [WatchAdd usr; WatchAdd usr]
  /\ path_to_priority (state_of twice) !! usr = Some 1%Z
  /\ trace nested = [WatchAdd "/a/applications"]
  /\ path_to_priority (state_of nested) !! "/a/applications/applications" = None.
Proof. repeat split; by vm_compute. Qed.

(* ===================================================================== *)
(** ** Further properties of the code *)
(* ===================================================================== *)

(** *** The locale parser *)

Section LocaleFacts.
Import Locale.

Lemma letter_is_not (c d : ascii) :
  not_letter c = false -> not_letter d = true -> is_char c d = false.
Proof.
  intros Hc Hd. unfold is_char. destruct (Ascii.eqb_spec c d) as [->|]; [congruence|done].
Qed.

Lemma char_at_app (l rest : string) (d : ascii) :
  char_at (l +:+ String d rest) (String.length l) = d.
Proof. unfold char_at. induction l as [|c l IH]; simpl; [done|]. exact IH. Qed.

Lemma char_at_end (l : string) : char_at l (String.length l) = Ascii.zero.
Proof. unfold char_at. induction l as [|c l IH]; simpl; [done|]. exact IH. Qed.

Lemma advance_app (l rest : string) :
  advance (String.length l) (l +:+ rest) = rest.
Proof. induction l as [|c l IH]; simpl; [by destruct rest|]. exact IH. Qed.

Lemma advance_past (l rest : string) (d : ascii) :
  advance (String.length l + 1) (l +:+ String d rest) = rest.
Proof. induction l as [|c l IH]; simpl; [by destruct rest|]. exact IH. Qed.

Lemma g_strndup_app (l rest : string) :
  g_strndup (l +:+ rest) (String.length l) = l.
Proof.
  unfold g_strndup. induction l as [|c l IH]; simpl; [by destruct rest|].
  by rewrite IH.
Qed.

Lemma g_strndup_all (l : string) : g_strndup l (String.length l) = l.
Proof.
  unfold g_strndup. induction l as [|c l IH]; simpl; [done|]. by rewrite IH.
Qed.

(** A loop over a run of letters stops at the byte that follows it. *)
Lemma scan_run (stop : ascii -> bool) (l rest : string) (d : ascii) :
  (forall c, not_letter c = false -> stop c = false) ->
  letters l = true ->
  not_letter d = true ->
  scan stop (l +:+ String d rest)
  = (String.length l, is_char d Ascii.zero || stop d).
Proof.
  intros Hstop Hl Hd. induction l as [|c l IH]; simpl.
  - destruct (is_char d Ascii.zero || stop d); [done|]. by rewrite Hd.
  - simpl in Hl. apply andb_true_iff in Hl as [Hc Hl]. apply negb_true_iff in Hc.
    rewrite (letter_is_not c Ascii.zero Hc eq_refl), (Hstop c Hc), Hc. simpl.
    by rewrite (IH Hl).
Qed.

Lemma scan_all (stop : ascii -> bool) (l : string) :
  (forall c, not_letter c = false -> stop c = false) ->
  letters l = true ->
  scan stop l = (String.length l, true).
Proof.
  intros Hstop Hl. induction l as [|c l IH]; simpl; [done|].
  simpl in Hl. apply andb_true_iff in Hl as [Hc Hl]. apply negb_true_iff in Hc.
  rewrite (letter_is_not c Ascii.zero Hc eq_refl), (Hstop c Hc), Hc. simpl.
  by rewrite (IH Hl).
Qed.

(** Whatever a loop steps over is made of letters. *)
Lemma scan_steps_over_letters (stop : ascii -> bool) (s : string) :
  letters (g_strndup s (fst (scan stop s))) = true.
Proof.
  unfold g_strndup. induction s as [|c s IH]; simpl; [done|].
  destruct (is_char c Ascii.zero || stop c); [done|].
  destruct (not_letter c) eqn:Hc; [done|].
  destruct (scan stop s) as [i b]. simpl in *. by rewrite Hc, IH.
Qed.

Lemma stops_language (c : ascii) :
  not_letter c = false -> is_char c "_" || is_char c "." || is_char c "@" = false.
Proof.
  intros Hc.
  by rewrite (letter_is_not c "_" Hc eq_refl), (letter_is_not c "." Hc eq_refl),
    (letter_is_not c "@" Hc eq_refl).
Qed.

Lemma stops_country (c : ascii) :
  not_letter c = false -> is_char c "." || is_char c "@" = false.
Proof.
  intros Hc.
  by rewrite (letter_is_not c "." Hc eq_refl), (letter_is_not c "@" Hc eq_refl).
Qed.

Lemma stops_charset (c : ascii) :
  not_letter c = false -> is_char c "@" = false.
Proof. intros Hc. exact (letter_is_not c "@" Hc eq_refl). Qed.

End LocaleFacts.

(** Settles the comparisons between two known bytes, then the branches
    that depend on them. *)
Ltac known_bytes :=
  cbv beta iota zeta; unfold Ascii.zero;
  repeat match goal with
  | |- context [Locale.is_char (Ascii ?a ?b ?c ?d ?e ?f ?g ?h)
                               (Ascii ?a' ?b' ?c' ?d' ?e' ?f' ?g' ?h')] =>
      let v := eval vm_compute in
        (Locale.is_char (Ascii a b c d e f g h) (Ascii a' b' c' d' e' f' g' h')) in
      change (Locale.is_char (Ascii a b c d e f g h) (Ascii a' b' c' d' e' f' g' h'))
        with v
  end;
  cbn [orb andb Locale.set]; cbv beta iota zeta.

(** Moves the parse past the segments whose bytes are known. *)
Ltac locale_steps :=
  repeat (progress (rewrite ?char_at_app, ?char_at_end, ?g_strndup_app, ?g_strndup_all,
                      ?advance_past, ?advance_app; known_bytes)).

(** Property X1. A locale made of letters only is a language and nothing more. *)
Theorem locale_language_only (l : string) :
  Locale.letters l = true ->
  Locale.parse l = Locale.Parts (Some l) None None.
Proof.
  intros Hl. unfold Locale.parse.
  rewrite (scan_all _ l stops_language Hl). locale_steps. reflexivity.
Qed.

Lemma locale_language_only_witness :
  Locale.parse "de" = Locale.Parts (Some "de") None None.
Proof. apply (locale_language_only "de"). reflexivity. Defined.

(** Property X2. language_COUNTRY is split at the underscore. *)
Theorem locale_language_country (l c : string) :
  Locale.letters l = true ->
  Locale.letters c = true ->
  Locale.parse (l +:+ String "_" c) = Locale.Parts (Some l) (Some c) None.
Proof.
  intros Hl Hc. unfold Locale.parse.
  rewrite (scan_run _ l c "_" stops_language Hl eq_refl). locale_steps.
  rewrite (scan_all _ c stops_country Hc). locale_steps. reflexivity.
Qed.

Lemma locale_language_country_witness :
  Locale.parse "pt_BR" = Locale.Parts (Some "pt") (Some "BR") None.
Proof. apply (locale_language_country "pt" "BR"); reflexivity. Defined.

(** Property X3. language_COUNTRY@modifier, with no charset in between, gives all three
    parts. *)
Theorem locale_language_country_modifier (l c m : string) :
  Locale.letters l = true ->
  Locale.letters c = true ->
  Locale.letters m = true ->
  Locale.parse (l +:+ String "_" (c +:+ String "@" m))
  = Locale.Parts (Some l) (Some c) (Some m).
Proof.
  intros Hl Hc Hm. unfold Locale.parse.
  rewrite (scan_run _ l _ "_" stops_language Hl eq_refl). locale_steps.
  rewrite (scan_run _ c m "@" stops_country Hc eq_refl). locale_steps.
  rewrite (scan_all _ m (fun _ _ => eq_refl) Hm). locale_steps. reflexivity.
Qed.

Lemma locale_language_country_modifier_witness :
  Locale.parse "sr_RS@latin" = Locale.Parts (Some "sr") (Some "RS") (Some "latin").
Proof. apply (locale_language_country_modifier "sr" "RS" "latin"); reflexivity. Defined.

(** Property X4. Once the country is followed by a charset, no modifier is ever read,
    whatever the charset and whatever follows it. *)
Theorem locale_charset_hides_modifier (l c rest : string) :
  Locale.letters l = true ->
  Locale.letters c = true ->
  Locale.parse (l +:+ String "_" (c +:+ String "." rest))
  = Locale.Parts (Some l) (Some c) None.
Proof.
  intros Hl Hc. unfold Locale.parse.
  rewrite (scan_run _ l _ "_" stops_language Hl eq_refl). locale_steps.
  rewrite (scan_run _ c rest "." stops_country Hc eq_refl). locale_steps.
  rewrite charset_loop_stuck. cbn [fst]. rewrite Nat.add_0_r. locale_steps.
  reflexivity.
Qed.

Lemma locale_charset_hides_modifier_witness :
  Locale.parse "ca_ES.UTF@valencia" = Locale.Parts (Some "ca") (Some "ES") None.
Proof. apply (locale_charset_hides_modifier "ca" "ES" "UTF@valencia"); reflexivity. Defined.

(** Property X5. A charset or a modifier that comes straight after the language ends
    the parse: without a country nothing more is read. *)
Theorem locale_needs_country (l rest : string) (d : ascii) :
  Locale.letters l = true ->
  d = "."%char \/ d = "@"%char ->
  Locale.parse (l +:+ String d rest) = Locale.Parts (Some l) None None.
Proof.
  intros Hl Hd. unfold Locale.parse.
  assert (Locale.not_letter d = true) as Hnl by (by destruct Hd as [-> | ->]).
  rewrite (scan_run _ l rest d stops_language Hl Hnl).
  assert (Locale.is_char d Ascii.zero
          || (Locale.is_char d "_" || Locale.is_char d "." || Locale.is_char d "@") = true)
    as -> by (by destruct Hd as [-> | ->]).
  cbv beta iota zeta. rewrite g_strndup_app, char_at_app.
  by destruct Hd as [-> | ->].
Qed.

Lemma locale_needs_country_witness :
  Locale.parse "en@euro" = Locale.Parts (Some "en") None None.
Proof. apply (locale_needs_country "en" "euro" "@"); [reflexivity | by right]. Defined.

(** Property X6. A byte that is neither a letter nor one of "_", ".", "@" in the
    language segment leaves all three parts unset. *)
Theorem locale_stray_byte (l rest : string) (d : ascii) :
  Locale.letters l = true ->
  Locale.not_letter d = true ->
  d <> Ascii.zero -> d <> "_"%char -> d <> "."%char -> d <> "@"%char ->
  Locale.parse (l +:+ String d rest) = Locale.Parts None None None.
Proof.
  intros Hl Hd H0 H1 H2 H3. unfold Locale.parse.
  rewrite (scan_run _ l rest d stops_language Hl Hd).
  unfold Locale.is_char.
  apply Ascii.eqb_neq in H0, H1, H2, H3. rewrite H0, H1, H2, H3. reflexivity.
Qed.

Lemma locale_stray_byte_witness :
  Locale.parse "en-US" = Locale.Parts None None None.
Proof. by apply (locale_stray_byte "en" "US" "-"). Defined.

(** Property X7. Whatever the locale string, each part that is set is made of letters
    only; a country is only ever set together with a language, and a
    modifier together with a country. *)
Theorem locale_parts_are_letters (locale : string) :
  let p := Locale.parse locale in
  (forall l, Locale.language p = Some l -> Locale.letters l = true)
  /\ (forall c, Locale.country p = Some c ->
        Locale.letters c = true /\ Locale.language p <> None)
  /\ (forall m, Locale.modifier p = Some m ->
        Locale.letters m = true /\ Locale.country p <> None).
Proof.
  unfold Locale.parse.
  pose proof (scan_steps_over_letters
    (fun c => Locale.is_char c "_" || Locale.is_char c "." || Locale.is_char c "@")
    locale) as H1.
  destruct (Locale.scan _ locale) as [i [|]]; cbn [fst] in H1; cbv beta iota zeta;
    cbn [Locale.set andb]; [|cbn; naive_solver].
  destruct (Locale.is_char (Locale.char_at locale i) "_"); cbv beta iota zeta;
    [|cbn; naive_solver].
  set (locale2 := Locale.advance (i + 1) locale).
  pose proof (scan_steps_over_letters
    (fun c => Locale.is_char c "." || Locale.is_char c "@") locale2) as H2.
  destruct (Locale.scan _ locale2) as [j [|]]; cbn [fst] in H2; cbv beta iota zeta;
    cbn [Locale.set andb]; [|cbn; naive_solver].
  set (k := if Locale.is_char (Locale.char_at locale2 j) "." then _ else _).
  destruct (Locale.is_char (Locale.char_at locale2 k) "@"); cbv beta iota zeta;
    [|cbn; naive_solver].
  set (locale3 := Locale.advance (k + 1) locale2).
  pose proof (scan_steps_over_letters (fun _ => false) locale3) as H3.
  destruct (Locale.scan _ locale3) as [n [|]]; cbn [fst] in H3; cbn; naive_solver.
Qed.

Lemma locale_parts_are_letters_witness :
  Locale.letters "en" = true /\ Locale.letters "GB" = true.
Proof.
  destruct (locale_parts_are_letters "en_GB.ISO") as (Hl & Hc & _).
  split; [by apply Hl | by apply (Hc "GB")].
Defined.

(** *** The two searches *)

Section Searches.
Context `{LinkApi}.

(** Property X8. [find_base_entry_path] returns NULL exactly when no entry of the list
    comes from the file, and otherwise the first entry that does. *)
Theorem find_base_entry_path_first (lst : list ObtLinkBaseEntry) (full_path : string) :
  match find_base_entry_path lst full_path with
  | Null =>
      forall e, e ∈ lst -> obt_link_source_file (link e) <> full_path
  | Node n =>
      exists e, lst !! n = Some e
        /\ obt_link_source_file (link e) = full_path
        /\ forall m e', (m < n)%nat -> lst !! m = Some e' ->
             obt_link_source_file (link e') <> full_path
  | Released | Unassigned => False
  end.
Proof.
  induction lst as [|a rest IH]; simpl.
  - intros e He. by inversion He.
  - destruct (String.eqb_spec (obt_link_source_file (link a)) full_path) as [Heq | Hne].
    + exists a. repeat split; [done|]. intros m e' Hm. lia.
    + destruct (find_base_entry_path rest full_path) as [|n| |]; simpl; try done.
      * intros e He. apply elem_of_cons in He as [-> | He]; [done | by apply IH].
      * destruct IH as (e & Hn & He & Hfirst). exists e. repeat split; try done.
        intros [|m] e' Hm Hm'; simpl in Hm'; [by injection Hm' as <-|].
        apply (Hfirst m e'); [lia | done].
Qed.

(** Property X9. [find_base_entry_priority] returns NULL exactly when every priority of
    the list is below the one asked for, and otherwise the first entry
    whose priority is not below it. *)
Theorem find_base_entry_priority_first (lst : list ObtLinkBaseEntry) (pri : gint) :
  match find_base_entry_priority lst pri with
  | Null =>
      forall e, e ∈ lst -> (priority e < pri)%Z
  | Node n =>
      exists e, lst !! n = Some e
        /\ (pri <= priority e)%Z
        /\ forall m e', (m < n)%nat -> lst !! m = Some e' -> (priority e' < pri)%Z
  | Released | Unassigned => False
  end.
Proof.
  induction lst as [|a rest IH]; simpl.
  - intros e He. by inversion He.
  - destruct (priority a >=? pri)%Z eqn:Hge.
    + exists a. repeat split; [lia|]. intros m e' Hm. lia.
    + destruct (find_base_entry_priority rest pri) as [|n| |]; simpl; try done.
      * intros e He. apply elem_of_cons in He as [-> | He]; [lia | by apply IH].
      * destruct IH as (e & Hn & He & Hfirst). exists e. repeat split; try done.
        intros [|m] e' Hm Hm'; simpl in Hm'; [injection Hm' as <-; lia|].
        apply (Hfirst m e'); [lia | done].
Qed.

End Searches.

(** *** The category index *)

Section Categories.
Context `{LinkApi}.

Lemma category_add_listing_aux (lb : ObtLinkBase) (cat c : GQuark) (l : ObtLink) :
  obt_linkbase_category (category_add lb cat l) c
  = (if decide (c = cat) then l :: obt_linkbase_category lb cat
     else obt_linkbase_category lb c)
  /\ base (category_add lb cat l) = base lb.
Proof.
  split; [|done].
  unfold obt_linkbase_category, category_add, g_slist_prepend. simpl.
  case_decide as Hc.
  - subst c. rewrite lookup_insert_eq. by destruct (categories lb !! cat).
  - by rewrite lookup_insert_ne.
Qed.

(** Property X10. After [category_add] the link heads the listing of its category; the
    listings of the other categories, and [base], are as before. *)
Theorem category_add_listing (lb : ObtLinkBase) (cat c : GQuark) (l : ObtLink) :
  obt_linkbase_category (category_add lb cat l) c
  = (if decide (c = cat) then l :: obt_linkbase_category lb cat
     else obt_linkbase_category lb c)
  /\ base (category_add lb cat l) = base lb.
Proof. exact (category_add_listing_aux lb cat c l). Qed.

Lemma category_walk_first (links : list ObtLink) (l : ObtLink) :
  match category_walk links (LinkPtr l) with
  | Null => l ∉ links
  | Node n =>
      exists l1 l2, links = l1 ++ l :: l2 /\ (l ∉ l1) /\ List.length l1 = n
  | Released | Unassigned => False
  end.
Proof.
  induction links as [|a rest IH]; cbn [category_walk].
  - apply not_elem_of_nil.
  - destruct (decide (LinkPtr a = LinkPtr l)) as [Heq | Hne].
    + injection Heq as ->. exists [], rest. repeat split. apply not_elem_of_nil.
    + assert (a <> l) by congruence.
      destruct (category_walk rest (LinkPtr l)) as [|n| |]; simpl; try done.
      * rewrite not_elem_of_cons. by split.
      * destruct IH as (l1 & l2 & -> & Hl1 & Hlen).
        exists (a :: l1), l2. repeat split; [|by simpl; rewrite Hlen].
        rewrite not_elem_of_cons. by split.
Qed.

(** Property X11. [category_remove] on a link that is not listed under the category, or
    on a category that does not exist, dereferences NULL. *)
Theorem category_remove_unlisted (lb : ObtLinkBase) (cat : GQuark) (l : ObtLink) :
  l ∉ obt_linkbase_category lb cat ->
  category_remove lb cat (LinkPtr l) = undefined NullDereference.
Proof.
  unfold obt_linkbase_category, category_remove.
  destruct (categories lb !! cat) as [links|]; [|done].
  intros Hl. pose proof (category_walk_first links l) as Hw.
  destruct (category_walk links (LinkPtr l)) as [|n| |]; try done.
  destruct Hw as (l1 & l2 & -> & _). exfalso. apply Hl.
  rewrite elem_of_app, elem_of_cons. tauto.
Qed.

Lemma category_remove_listed_aux (lb : ObtLinkBase) (cat : GQuark) (l : ObtLink) :
  l ∈ obt_linkbase_category lb cat ->
  exists lb' l1 l2,
    category_remove lb cat (LinkPtr l) = mret lb'
    /\ obt_linkbase_category lb cat = l1 ++ l :: l2
    /\ (l ∉ l1)
    /\ obt_linkbase_category lb' cat = l1 ++ l2
    /\ (l1 ++ l2 = [] -> categories lb' !! cat = None)
    /\ (forall c, c <> cat -> obt_linkbase_category lb' c = obt_linkbase_category lb c)
    /\ base lb' = base lb.
Proof.
  unfold obt_linkbase_category at 1 2, category_remove.
  destruct (categories lb !! cat) as [links|] eqn:Hcat; [|by intros ?%elem_of_nil].
  intros Hl. pose proof (category_walk_first links l) as Hw.
  destruct (category_walk links (LinkPtr l)) as [|n| |]; try done.
  destruct Hw as (l1 & l2 & -> & Hl1 & <-).
  assert (g_slist_delete_link (l1 ++ l :: l2) (Node (List.length l1)) = l1 ++ l2) as Hdel.
  { unfold g_slist_delete_link. clear. induction l1 as [|a l1 IH]; simpl; [done|].
    by f_equal. }
  simpl is_null. cbv iota. rewrite Hdel.
  destruct (l1 ++ l2) as [|x xs] eqn:Hrest.
  - eexists _, l1, l2. split; [reflexivity|]. rewrite Hrest.
    unfold obt_linkbase_category. simpl. rewrite lookup_delete_eq.
    repeat split; try done. intros c Hc. by rewrite lookup_delete_ne.
  - eexists _, l1, l2. split; [reflexivity|]. rewrite Hrest.
    unfold obt_linkbase_category. simpl. rewrite lookup_insert_eq.
    repeat split; try done. intros c Hc. by rewrite lookup_insert_ne.
Qed.

(** Property X12. On a listed link [category_remove] returns; it takes the first
    occurrence of the link out of the listing of the category, drops the
    category from the table when nothing is left, and leaves the other
    listings and [base] alone. *)
Theorem category_remove_listed (lb : ObtLinkBase) (cat : GQuark) (l : ObtLink) :
  l ∈ obt_linkbase_category lb cat ->
  exists lb' l1 l2,
    category_remove lb cat (LinkPtr l) = mret lb'
    /\ obt_linkbase_category lb cat = l1 ++ l :: l2
    /\ (l ∉ l1)
    /\ obt_linkbase_category lb' cat = l1 ++ l2
    /\ (l1 ++ l2 = [] -> categories lb' !! cat = None)
    /\ (forall c, c <> cat -> obt_linkbase_category lb' c = obt_linkbase_category lb c)
    /\ base lb' = base lb.
Proof. exact (category_remove_listed_aux lb cat l). Qed.

(** Property X13. Filing a link under a category and taking it out again gives back
    every listing. *)
Theorem category_add_remove (lb : ObtLinkBase) (cat : GQuark) (l : ObtLink) :
  exists lb',
    category_remove (category_add lb cat l) cat (LinkPtr l) = mret lb'
    /\ (forall c, obt_linkbase_category lb' c = obt_linkbase_category lb c)
    /\ base lb' = base lb.
Proof.
  destruct (category_add_listing_aux lb cat cat l) as [Hlist _].
  rewrite decide_True in Hlist by done.
  destruct (category_remove_listed_aux (category_add lb cat l) cat l)
    as (lb' & l1 & l2 & Hrun & Hsplit & Hl1 & Hcat & _ & Hother & Hbase).
  { rewrite Hlist. apply list_elem_of_here. }
  exists lb'. split; [done|]. split; [|done].
  intros c. destruct (decide (c = cat)) as [-> | Hc].
  - rewrite Hcat. rewrite Hlist in Hsplit.
    destruct l1 as [|a l1]; simpl in Hsplit.
    + by injection Hsplit as <-.
    + injection Hsplit as <- _. exfalso. apply Hl1. apply list_elem_of_here.
  - rewrite (Hother c Hc).
    destruct (category_add_listing_aux lb cat c l) as [-> _]. by rewrite decide_False.
Qed.

End Categories.

(** *** The handler *)

Section Handler.
Context `{LinkApi}.

(** Property X14. Notifications that change nothing: one for a file that is not a
    description file, whatever its kind; the removal of the watched
    directory itself; the removal of a file that is not indexed. *)
Theorem update_ignores (w : World) (base_path sub_path full_path : string)
    (type : ObtWatchNotifyType) (self : ObtLinkBase) :
  g_str_has_suffix sub_path ".desktop" = false
  \/ type = OBT_WATCH_SELF_REMOVED
  \/ (type = OBT_WATCH_REMOVED
      /\ find_base_entry_path
           (default [] (base self !! obt_link_id_from_ddfile sub_path)) full_path = Null) ->
  update w base_path sub_path full_path type self = mret self.
Proof.
  unfold update. intros [Hsuffix | [-> | [-> Hfind]]].
  - by rewrite Hsuffix.
  - destruct (g_str_has_suffix sub_path ".desktop"); simpl negb; cbv iota; [|done].
    by rewrite bind_unit.
  - destruct (g_str_has_suffix sub_path ".desktop"); simpl negb; cbv iota; [|done].
    rewrite Hfind. simpl is_null. cbv iota. by rewrite bind_unit.
Qed.

(** Property X15. A description file reported added under a directory that is not in
    [path_to_priority]: the handler reads the priority through NULL. *)
Theorem added_unregistered (w : World) (base_path sub_path full_path : string)
    (self : ObtLinkBase) :
  g_str_has_suffix sub_path ".desktop" = true ->
  path_to_priority self !! base_path = None ->
  update w base_path sub_path full_path OBT_WATCH_ADDED self
  = undefined NullDereference.
Proof.
  intros Hsuffix Hpri. unfold update, lookup_priority. by rewrite Hsuffix, Hpri.
Qed.

Lemma update_added_run (w : World) (base_path sub_path full_path : string)
    (self : ObtLinkBase) (pri : gint) :
  g_str_has_suffix sub_path ".desktop" = true ->
  path_to_priority self !! base_path = Some pri ->
  (forall e, e ∈ default [] (base self !! obt_link_id_from_ddfile sub_path) ->
             priority e <> pri) ->
  update w base_path sub_path full_path OBT_WATCH_ADDED self
  = add_link w full_path (obt_link_id_from_ddfile sub_path)
      (default [] (base self !! obt_link_id_from_ddfile sub_path))
      (find_base_entry_priority
         (default [] (base self !! obt_link_id_from_ddfile sub_path)) pri)
      (Ptr pri) self.
Proof.
  intros Hsuffix Hpri Hfree. unfold update, lookup_priority.
  rewrite Hsuffix, Hpri. simpl negb. cbv iota. simpl deref. rewrite bind_unit.
  set (lst := default [] (base self !! obt_link_id_from_ddfile sub_path)) in *.
  destruct (find_base_entry_priority_spec lst pri)
    as [[-> _] | (n & e & -> & Hn & _ & _)]; simpl is_null; cbv iota.
  - by rewrite bind_unit.
  - unfold g_slist_data. rewrite Hn, !bind_unit.
    assert (priority e <> pri) as Hne
      by (apply Hfree; by apply list_elem_of_lookup_2 in Hn).
    apply Z.eqb_neq in Hne. by rewrite Hne.
Qed.

Lemma insert_before_length {A} (l : list A) (it : GSListPtr) (data : A) :
  List.length (g_slist_insert_before l it data) = S (List.length l).
Proof.
  unfold g_slist_insert_before.
  assert (List.length (l ++ [data]) = S (List.length l)) as Happ
    by (rewrite length_app; simpl; lia).
  destruct it as [|n| |]; try done.
  destruct (Nat.ltb_spec n (List.length l)); [|done].
  rewrite length_app. simpl. rewrite length_take, length_drop. lia.
Qed.

Lemma added_inserts_aux (w : World) (base_path sub_path full_path : string)
    (self : ObtLinkBase) (pri : gint) (l : ObtLink) :
  let id := obt_link_id_from_ddfile sub_path in
  let lst := default [] (base self !! id) in
  g_str_has_suffix sub_path ".desktop" = true ->
  path_to_priority self !! base_path = Some pri ->
  (forall e, e ∈ lst -> priority e <> pri) ->
  obt_link_from_ddfile w full_path (language self) (country self) (modifier self)
    = Some l ->
  obt_link_display l (environments self) = true ->
  exists self' lst',
    update w base_path sub_path full_path OBT_WATCH_ADDED self
    = Run match update_func self with
          | Some func => [UpdateFunc func OBT_LINKBASE_ADDED (LinkPtr l) (update_data self)]
          | None => []
          end (Ok self')
    /\ base self' !! id = Some lst'
    /\ (forall e, e ∈ lst' <-> e = Entry pri l \/ e ∈ lst)
    /\ List.length lst' = S (List.length lst)
    /\ (ascending lst -> ascending lst').
Proof.
  intros id lst Hsuffix Hpri Hfree Hparse Hshow.
  rewrite (update_added_run w base_path sub_path full_path self pri Hsuffix Hpri Hfree).
  fold id lst. unfold add_link. rewrite Hparse, Hshow. simpl negb. cbv iota.
  simpl deref. rewrite bind_unit.
  set (lst' := g_slist_insert_before lst (find_base_entry_priority lst pri) (Entry pri l)).
  set (self1 := set_base self (<[id := lst']> (base self))).
  exists (file_categories self1 l), lst'. split; [|split; [|split; [|split]]].
  - unfold notify. by destruct (update_func self).
  - destruct (file_categories_fields self1 l) as (-> & _). simpl.
    apply lookup_insert_eq.
  - intros e. apply insert_before_elem.
  - apply insert_before_length.
  - intros Hasc. apply insert_keeps_ascending; [done|].
    intros n e _ Hn. apply Hfree. by apply list_elem_of_lookup_2 in Hn.
Qed.

(** Property X16. A description file reported added under a registered directory, at a
    priority the list of its id does not hold yet, that parses into a
    record to display: the handler returns; the callback, if one is
    registered, was called once with the new link; the list of the id now
    holds one more entry, the new one with the directory's priority, and
    is ascending if it was. *)
Theorem added_inserts (w : World) (base_path sub_path full_path : string)
    (self : ObtLinkBase) (pri : gint) (l : ObtLink) :
  let id := obt_link_id_from_ddfile sub_path in
  let lst := default [] (base self !! id) in
  g_str_has_suffix sub_path ".desktop" = true ->
  path_to_priority self !! base_path = Some pri ->
  (forall e, e ∈ lst -> priority e <> pri) ->
  obt_link_from_ddfile w full_path (language self) (country self) (modifier self)
    = Some l ->
  obt_link_display l (environments self) = true ->
  exists self' lst',
    update w base_path sub_path full_path OBT_WATCH_ADDED self
    = Run match update_func self with
          | Some func => [UpdateFunc func OBT_LINKBASE_ADDED (LinkPtr l) (update_data self)]
          | None => []
          end (Ok self')
    /\ base self' !! id = Some lst'
    /\ (forall e, e ∈ lst' <-> e = Entry pri l \/ e ∈ lst)
    /\ List.length lst' = S (List.length lst)
    /\ (ascending lst -> ascending lst').
Proof. exact (added_inserts_aux w base_path sub_path full_path self pri l). Qed.

(** Property X17. Under the same conditions the new link is filed under each category
    it declares when it is an application, and under none otherwise; no
    other link is filed or taken out. *)
Theorem added_files_categories (w : World) (base_path sub_path full_path : string)
    (self : ObtLinkBase) (pri : gint) (l : ObtLink) :
  g_str_has_suffix sub_path ".desktop" = true ->
  path_to_priority self !! base_path = Some pri ->
  (forall e, e ∈ default [] (base self !! obt_link_id_from_ddfile sub_path) ->
             priority e <> pri) ->
  obt_link_from_ddfile w full_path (language self) (country self) (modifier self)
    = Some l ->
  obt_link_display l (environments self) = true ->
  exists self',
    result (update w base_path sub_path full_path OBT_WATCH_ADDED self) = Ok self'
    /\ forall cat x,
         x ∈ obt_linkbase_category self' cat
         <-> x ∈ obt_linkbase_category self cat
             \/ (x = l /\ obt_link_type l = OBT_LINK_TYPE_APPLICATION
                 /\ cat ∈ obt_link_app_categories l).
Proof.
  intros Hsuffix Hpri Hfree Hparse Hshow.
  rewrite (update_added_run w base_path sub_path full_path self pri Hsuffix Hpri Hfree).
  unfold add_link. rewrite Hparse, Hshow. simpl negb. cbv iota.
  simpl deref. rewrite bind_unit, result_bind, result_notify.
  eexists. split; [reflexivity|]. intros cat x. unfold file_categories.
  case_decide as Happ.
  - rewrite categories_add_elem. tauto.
  - change (obt_linkbase_category (set_base self _) cat)
      with (obt_linkbase_category self cat). tauto.
Qed.

(** Property X18. A file reported added that does not parse leaves everything as it
    was and has no effect; one that parses into a record not to be
    displayed leaves everything as it was too, and the reference just
    obtained on the record is released, once. *)
Theorem added_skipped (w : World) (base_path sub_path full_path : string)
    (self : ObtLinkBase) (pri : gint) :
  g_str_has_suffix sub_path ".desktop" = true ->
  path_to_priority self !! base_path = Some pri ->
  (forall e, e ∈ default [] (base self !! obt_link_id_from_ddfile sub_path) ->
             priority e <> pri) ->
  (obt_link_from_ddfile w full_path (language self) (country self) (modifier self) = None ->
   update w base_path sub_path full_path OBT_WATCH_ADDED self = mret self)
  /\ (forall l,
        obt_link_from_ddfile w full_path (language self) (country self) (modifier self)
          = Some l ->
        obt_link_display l (environments self) = false ->
        update w base_path sub_path full_path OBT_WATCH_ADDED self
        = Run [LinkUnref l] (Ok self)).
Proof.
  intros Hsuffix Hpri Hfree.
  rewrite (update_added_run w base_path sub_path full_path self pri Hsuffix Hpri Hfree).
  unfold add_link. split.
  - by intros ->.
  - by intros l -> ->.
Qed.

Lemma file_categories_scalars (self : ObtLinkBase) (l : ObtLink) :
  environments (file_categories self l) = environments self
  /\ language (file_categories self l) = language self
  /\ country (file_categories self l) = country self
  /\ modifier (file_categories self l) = modifier self.
Proof.
  unfold file_categories. case_decide; [|done].
  generalize (obt_link_app_categories l). intros cats. revert self.
  induction cats as [|c cats IH]; intros self; simpl; [done|].
  by destruct (IH (category_add self c l)) as (-> & -> & -> & ->).
Qed.

Lemma update_frame_aux (w : World) (base_path sub_path full_path : string)
    (type : ObtWatchNotifyType) (self self' : ObtLinkBase) :
  result (update w base_path sub_path full_path type self) = Ok self' ->
  (forall id, id <> obt_link_id_from_ddfile sub_path -> base self' !! id = base self !! id)
  /\ path_to_priority self' = path_to_priority self
  /\ update_func self' = update_func self
  /\ update_data self' = update_data self
  /\ ref self' = ref self
  /\ environments self' = environments self
  /\ language self' = language self
  /\ country self' = country self
  /\ modifier self' = modifier self.
Proof.
  intros Hres.
  destruct (update_keeps_fields _ _ _ _ _ _ _ Hres) as (Hp & Hf & Hd & Hr).
  apply update_returns in Hres as [-> | (pri & l & _ & _ & _ & _ & _ & _ & ->)]; [done|].
  repeat split; try done.
  - intros id Hid.
    destruct (file_categories_fields
      (set_base self (<[obt_link_id_from_ddfile sub_path :=
         g_slist_insert_before (default [] (base self !! obt_link_id_from_ddfile sub_path))
           (find_base_entry_priority
              (default [] (base self !! obt_link_id_from_ddfile sub_path)) pri)
           (Entry pri l)]> (base self))) l) as (-> & _).
    simpl. by rewrite lookup_insert_ne.
  - by destruct (file_categories_scalars (set_base self (<[obt_link_id_from_ddfile sub_path :=
         g_slist_insert_before (default [] (base self !! obt_link_id_from_ddfile sub_path))
           (find_base_entry_priority
              (default [] (base self !! obt_link_id_from_ddfile sub_path)) pri)
           (Entry pri l)]> (base self))) l) as (-> & _).
  - by destruct (file_categories_scalars (set_base self (<[obt_link_id_from_ddfile sub_path :=
         g_slist_insert_before (default [] (base self !! obt_link_id_from_ddfile sub_path))
           (find_base_entry_priority
              (default [] (base self !! obt_link_id_from_ddfile sub_path)) pri)
           (Entry pri l)]> (base self))) l) as (_ & -> & _).
  - by destruct (file_categories_scalars (set_base self (<[obt_link_id_from_ddfile sub_path :=
         g_slist_insert_before (default [] (base self !! obt_link_id_from_ddfile sub_path))
           (find_base_entry_priority
              (default [] (base self !! obt_link_id_from_ddfile sub_path)) pri)
           (Entry pri l)]> (base self))) l) as (_ & _ & -> & _).
  - by destruct (file_categories_scalars (set_base self (<[obt_link_id_from_ddfile sub_path :=
         g_slist_insert_before (default [] (base self !! obt_link_id_from_ddfile sub_path))
           (find_base_entry_priority
              (default [] (base self !! obt_link_id_from_ddfile sub_path)) pri)
           (Entry pri l)]> (base self))) l) as (_ & _ & _ & ->).
Qed.

(** Property X19. Whenever the handler returns, the lists of the other ids are the ones
    it found, and so are the directory priorities, the callback and its
    data, the reference count, the environments and the locale. *)
Theorem update_frame (w : World) (base_path sub_path full_path : string)
    (type : ObtWatchNotifyType) (self self' : ObtLinkBase) :
  result (update w base_path sub_path full_path type self) = Ok self' ->
  (forall id, id <> obt_link_id_from_ddfile sub_path -> base self' !! id = base self !! id)
  /\ path_to_priority self' = path_to_priority self
  /\ update_func self' = update_func self
  /\ update_data self' = update_data self
  /\ ref self' = ref self
  /\ environments self' = environments self
  /\ language self' = language self
  /\ country self' = country self
  /\ modifier self' = modifier self.
Proof. exact (update_frame_aux w base_path sub_path full_path type self self'). Qed.

End Handler.

(** *** Order of the lists *)

Section Order.
Context `{LinkApi}.

Lemma ascending_sorted (lst : list ObtLinkBaseEntry) :
  ascending lst <-> StronglySorted (fun a b => (priority a < priority b)%Z) lst.
Proof.
  induction lst as [|a rest IH].
  - split; constructor.
  - rewrite ascending_cons, IH. split.
    + intros [Hs Hall]. constructor; [done|]. by apply Forall_forall; apply Forall_forall.
    + intros Hs. apply StronglySorted_inv in Hs as [Hs Hall]. split; [done|].
      by apply Forall_forall; apply Forall_forall.
Qed.

Lemma ascending_distinct (lst : list ObtLinkBaseEntry) :
  ascending lst -> NoDup (List.map priority lst).
Proof.
  induction lst as [|a rest IH]; [constructor|].
  rewrite ascending_cons. intros [Hs Hall]. simpl. constructor; [|by apply IH].
  intros Hin. apply list_elem_of_In, in_map_iff in Hin as (e & Heq & He).
  rewrite Forall_forall in Hall. apply list_elem_of_In in He.
  specialize (Hall e He). lia.
Qed.

Lemma ascending_nodup (lst : list ObtLinkBaseEntry) :
  ascending lst -> NoDup lst.
Proof.
  intros Hasc. apply ascending_distinct in Hasc.
  eapply NoDup_fmap_1. exact Hasc.
Qed.

(** Property X20. A description file reported added under a registered directory: the
    handler returns, and if every list was in strictly ascending order of
    priority every list still is; in particular no list holds two entries
    of the same priority. *)
Theorem added_keeps_order (w : World) (base_path sub_path full_path : string)
    (self : ObtLinkBase) (pri : gint) :
  path_to_priority self !! base_path = Some pri ->
  base_ascending self ->
  exists self',
    result (update w base_path sub_path full_path OBT_WATCH_ADDED self) = Ok self'
    /\ base_ascending self'
    /\ forall id lst, base self' !! id = Some lst -> NoDup (List.map priority lst).
Proof.
  intros Hpri Hasc.
  destruct (update_added_defined w base_path sub_path full_path self pri Hpri)
    as [self' Hres].
  exists self'. split; [done|].
  assert (base_ascending self') as Hasc'
    by apply (update_keeps_ascending _ _ _ _ _ _ _ Hasc Hres).
  split; [done|]. intros id lst Hlst. apply ascending_distinct. by apply (Hasc' id).
Qed.

(** Two ascending lists with the same entries are the same list. *)
Lemma ascending_unique (l1 l2 : list ObtLinkBaseEntry) :
  ascending l1 -> ascending l2 -> (forall e, e ∈ l1 <-> e ∈ l2) -> l1 = l2.
Proof.
  intros H1 H2 Hsame.
  assert (l1 ≡ₚ l2) as Hperm.
  { apply NoDup_Permutation; [by apply ascending_nodup | by apply ascending_nodup | done]. }
  apply ascending_sorted in H1, H2.
  apply (StronglySorted_unique_strong (fun a b => (priority a < priority b)%Z));
    try done.
  intros x y _ _ Hxy Hyx. lia.
Qed.

(** Property X21. The same file found under two registered directories: whichever
    directory reports it first, the index ends up the same, with the two
    entries in the order of the priorities. *)
Theorem added_order_irrelevant (w : World) (sub_path : string)
    (base_path1 full_path1 base_path2 full_path2 : string)
    (self : ObtLinkBase) (pri1 pri2 : gint) (l1 l2 : ObtLink) :
  let id := obt_link_id_from_ddfile sub_path in
  let lst := default [] (base self !! id) in
  g_str_has_suffix sub_path ".desktop" = true ->
  path_to_priority self !! base_path1 = Some pri1 ->
  path_to_priority self !! base_path2 = Some pri2 ->
  pri1 <> pri2 ->
  ascending lst ->
  (forall e, e ∈ lst -> priority e <> pri1 /\ priority e <> pri2) ->
  obt_link_from_ddfile w full_path1 (language self) (country self) (modifier self)
    = Some l1 ->
  obt_link_from_ddfile w full_path2 (language self) (country self) (modifier self)
    = Some l2 ->
  obt_link_display l1 (environments self) = true ->
  obt_link_display l2 (environments self) = true ->
  exists first second,
    result (update w base_path1 sub_path full_path1 OBT_WATCH_ADDED self
            ≫= update w base_path2 sub_path full_path2 OBT_WATCH_ADDED) = Ok first
    /\ result (update w base_path2 sub_path full_path2 OBT_WATCH_ADDED self
               ≫= update w base_path1 sub_path full_path1 OBT_WATCH_ADDED) = Ok second
    /\ base first = base second
    /\ exists lst', base first !! id = Some lst' /\ ascending lst'
         /\ forall e, e ∈ lst' <-> e = Entry pri1 l1 \/ e = Entry pri2 l2 \/ e ∈ lst.
Proof.
  intros id lst Hsuffix Hp1 Hp2 Hne Hasc Hfree Hparse1 Hparse2 Hshow1 Hshow2.
  assert (forall bpa fpa pa la bpb fpb pb lb,
    path_to_priority self !! bpa = Some pa -> path_to_priority self !! bpb = Some pb ->
    pa <> pb ->
    (forall e, e ∈ lst -> priority e <> pa /\ priority e <> pb) ->
    obt_link_from_ddfile w fpa (language self) (country self) (modifier self) = Some la ->
    obt_link_from_ddfile w fpb (language self) (country self) (modifier self) = Some lb ->
    obt_link_display la (environments self) = true ->
    obt_link_display lb (environments self) = true ->
    exists s lst',
      result (update w bpa sub_path fpa OBT_WATCH_ADDED self
              ≫= update w bpb sub_path fpb OBT_WATCH_ADDED) = Ok s
      /\ base s !! id = Some lst' /\ ascending lst'
      /\ (forall e, e ∈ lst' <-> e = Entry pa la \/ e = Entry pb lb \/ e ∈ lst)
      /\ forall id', id' <> id -> base s !! id' = base self !! id') as Hboth.
  { intros bpa fpa pa la bpb fpb pb lb Hpa Hpb Hab Hfr Hpsa Hpsb Hsha Hshb.
    destruct (added_inserts_aux w bpa sub_path fpa self pa la Hsuffix Hpa
                (fun e He => proj1 (Hfr e He)) Hpsa Hsha)
      as (s1 & lsta & Hrun1 & Hbase1 & Helem1 & _ & Hasc1).
    assert (result (update w bpa sub_path fpa OBT_WATCH_ADDED self) = Ok s1) as Hres1
      by (by rewrite Hrun1).
    destruct (update_frame_aux _ _ _ _ _ _ _ Hres1)
      as (Hother1 & Hreg1 & _ & _ & _ & Henv1 & Hlang1 & Hcountry1 & Hmod1).
    destruct (added_inserts_aux w bpb sub_path fpb s1 pb lb Hsuffix)
      as (s2 & lstb & Hrun2 & Hbase2 & Helem2 & _ & Hasc2).
    - by rewrite Hreg1.
    - rewrite Hbase1. simpl. intros e He.
      apply Helem1 in He as [-> | He]; [simpl; congruence | by apply Hfr].
    - by rewrite Hlang1, Hcountry1, Hmod1.
    - by rewrite Henv1.
    - assert (result (update w bpb sub_path fpb OBT_WATCH_ADDED s1) = Ok s2) as Hres2
        by (by rewrite Hrun2).
      destruct (update_frame_aux _ _ _ _ _ _ _ Hres2) as (Hother2 & _).
      exists s2, lstb. rewrite result_bind, Hres1, Hres2.
      fold id in Hbase1, Hbase2, Helem2, Hasc2. rewrite Hbase1 in Helem2, Hasc2.
      simpl in Helem2, Hasc2. repeat split.
      + done.
      + apply Hasc2, Hasc1, Hasc.
      + intros He. apply Helem2 in He as [-> | He]; [tauto|].
        apply Helem1 in He. tauto.
      + intros He. apply Helem2. rewrite Helem1. tauto.
      + intros id' Hid'. by rewrite (Hother2 id' Hid'), (Hother1 id' Hid'). }
  destruct (Hboth base_path1 full_path1 pri1 l1 base_path2 full_path2 pri2 l2)
    as (first & lst1 & Hres1 & Hb1 & Ha1 & He1 & Ho1); try done.
  destruct (Hboth base_path2 full_path2 pri2 l2 base_path1 full_path1 pri1 l1)
    as (second & lst2 & Hres2 & Hb2 & Ha2 & He2 & Ho2); try done.
  { intros e He. destruct (Hfree e He). by split. }
  assert (lst1 = lst2) as <-.
  { apply ascending_unique; try done. intros e. rewrite He1, He2. tauto. }
  exists first, second. repeat split; try done.
  - apply map_eq. intros id'. destruct (decide (id' = id)) as [-> | Hid'].
    + by rewrite Hb1, Hb2.
    + by rewrite (Ho1 id' Hid'), (Ho2 id' Hid').
  - by exists lst1.
Qed.

End Order.

(** *** Construction *)

Section Construction.
Context `{LinkApi}.

Lemma watched_app (t1 t2 : list effect) : watched (t1 ++ t2) = watched t1 ++ watched t2.
Proof. apply omap_app. Qed.

Lemma released_app (t1 t2 : list effect) :
  released (t1 ++ t2) = released t1 ++ released t2.
Proof. apply omap_app. Qed.

Lemma notify_no_watch (self : ObtLinkBase) (type : ObtLinkBaseUpdateType) (arg : gpointer) :
  watched (trace (notify self type arg)) = [].
Proof. unfold notify. by destruct (update_func self). Qed.

Lemma add_link_no_watch (w : World) (full_path id : string)
    (lst : list ObtLinkBaseEntry) (it : GSListPtr) (pri : pointer gint)
    (self : ObtLinkBase) :
  watched (trace (add_link w full_path id lst it pri self)) = [].
Proof.
  unfold add_link, notify.
  destruct (obt_link_from_ddfile w full_path _ _ _) as [l|]; [|done].
  destruct (obt_link_display l (environments self)); [|done].
  destruct pri; try done. by destruct (update_func self).
Qed.

Lemma drop_entry_no_watch (self : ObtLinkBase) (lst : list ObtLinkBaseEntry)
    (it : GSListPtr) :
  watched (trace (drop_entry self lst it)) = [].
Proof.
  unfold drop_entry, notify, g_slist_data.
  destruct it as [|n| |]; try done.
  destruct (lst !! n); [|done]. by destruct (update_func self).
Qed.

(** The handler installs no watch. *)
Lemma update_no_watch (w : World) (base_path sub_path full_path : string)
    (type : ObtWatchNotifyType) (self : ObtLinkBase) :
  watched (trace (update w base_path sub_path full_path type self)) = [].
Proof.
  unfold update.
  destruct (g_str_has_suffix sub_path ".desktop"); simpl negb; cbv iota; [|done].
  set (id := obt_link_id_from_ddfile sub_path).
  set (lst := default [] (base self !! id)).
  destruct type.
  - unfold lookup_priority.
    destruct (path_to_priority self !! base_path) as [pri|]; [|done].
    simpl deref. rewrite bind_unit.
    destruct (is_null (find_base_entry_priority lst pri)).
    + rewrite bind_unit. apply add_link_no_watch.
    + unfold g_slist_data.
      destruct (find_base_entry_priority lst pri) as [|n| |]; try done.
      destruct (lst !! n) as [e|]; [|done].
      rewrite !bind_unit. destruct (negb _); [|done]. apply add_link_no_watch.
  - destruct (is_null (find_base_entry_path lst full_path)); [by rewrite bind_unit|].
    rewrite !trace_bind, !result_bind.
    destruct (drop_entry_undefined self lst (find_base_entry_path lst full_path))
      as [u Hu].
    rewrite Hu, !app_nil_r. apply drop_entry_no_watch.
  - destruct (is_null (find_base_entry_path lst full_path)); [by rewrite bind_unit|].
    rewrite !trace_bind, !result_bind.
    destruct (drop_entry_undefined self lst (find_base_entry_path lst full_path))
      as [u Hu].
    rewrite Hu, !app_nil_r. apply drop_entry_no_watch.
  - by rewrite bind_unit.
Qed.

Lemma watch_add_registry (w : World) (base_path : string) (self : ObtLinkBase) (pri : gint) :
  path_to_priority self !! base_path = Some pri ->
  exists self',
    result (obt_watch_add w base_path self) = Ok self'
    /\ path_to_priority self' = path_to_priority self
    /\ watched (trace (obt_watch_add w base_path self)) = [base_path].
Proof.
  intros Hpri. unfold obt_watch_add.
  assert (forall files self0,
    path_to_priority self0 = path_to_priority self ->
    exists self',
      result (foldM (fun self f => update w base_path (fst f) (snd f) OBT_WATCH_ADDED self)
                    self0 files) = Ok self'
      /\ path_to_priority self' = path_to_priority self
      /\ watched (trace (foldM (fun self f =>
           update w base_path (fst f) (snd f) OBT_WATCH_ADDED self) self0 files)) = [])
    as Hloop.
  { induction files as [|f files IH]; intros self0 Hreg.
    - by exists self0.
    - rewrite foldM_cons.
      destruct (update_added_defined w base_path (fst f) (snd f) self0 pri) as [s1 Hs1];
        [by rewrite Hreg|].
      destruct (update_keeps_fields _ _ _ _ _ _ _ Hs1) as (Hp1 & _).
      destruct (IH s1) as (s2 & Hs2 & Hp2 & Hw2); [by rewrite Hp1|].
      exists s2. rewrite result_bind, trace_bind, Hs1, watched_app, update_no_watch.
      by rewrite Hw2. }
  destruct (Hloop (existing w base_path) self eq_refl) as (self' & Hres & Hreg & Hw).
  exists self'. rewrite result_bind, trace_bind, watched_app. simpl result.
  cbv iota. by rewrite Hres, Hw.
Qed.

Lemma result_ret {A} (a : A) : result (mret (M := M) a) = Ok a.
Proof. reflexivity. Qed.

Lemma trace_ret {A} (a : A) : trace (mret (M := M) a) = [].
Proof. reflexivity. Qed.

Lemma register_dir_fresh (w : World) (self : ObtLinkBase) (pri : gint) (dir : string) :
  path_to_priority self !! dir = None ->
  register_dir w (self, pri) dir
  = obt_watch_add w (g_build_filename w dir "applications")
      (set_path_to_priority self
         (<[g_build_filename w dir "applications" := pri]> (path_to_priority self)))
    ≫= fun self' => mret (M := M) (@pair ObtLinkBase gint self' (pri + 1)%Z).
Proof. intros Hdir. unfold register_dir. by rewrite Hdir. Qed.

Lemma register_loop (w : World) (dirs : list string) (self : ObtLinkBase) (pri : gint) :
  let join := fun dir => g_build_filename w dir "applications" in
  NoDup (join <$> dirs) ->
  (forall d, d ∈ dirs -> path_to_priority self !! d = None) ->
  (forall d d', d ∈ dirs -> d' ∈ dirs -> d <> join d') ->
  exists self',
    result (foldM (register_dir w) (self, pri) dirs)
    = Ok (self', (pri + Z.of_nat (List.length dirs))%Z)
    /\ (forall i d, dirs !! i = Some d ->
          path_to_priority self' !! join d = Some (pri + Z.of_nat i)%Z)
    /\ (forall path, path ∉ join <$> dirs ->
          path_to_priority self' !! path = path_to_priority self !! path)
    /\ watched (trace (foldM (register_dir w) (self, pri) dirs)) = join <$> dirs.
Proof.
  intros join. revert self pri.
  induction dirs as [|d dirs IH]; intros self pri Hnodup Hfresh Hapart.
  - exists self. simpl. rewrite Z.add_0_r. by repeat split.
  - rewrite fmap_cons in Hnodup. apply NoDup_cons in Hnodup as [Hd Hnodup].
    rewrite foldM_cons, (register_dir_fresh w self pri d)
      by apply Hfresh, list_elem_of_here.
    set (self1 := set_path_to_priority self (<[join d := pri]> (path_to_priority self))).
    destruct (watch_add_registry w (join d) self1 pri) as (self2 & Hres2 & Hreg2 & Hw2).
    { simpl. apply lookup_insert_eq. }
    destruct (IH self2 (pri + 1)%Z Hnodup) as (self' & Hres & Hidx & Hrest & Hw).
    { intros d' Hd'. rewrite Hreg2. simpl. rewrite lookup_insert_ne.
      - apply Hfresh. by apply list_elem_of_further.
      - intros Heq. apply (Hapart d' d); [by apply list_elem_of_further | | done].
        apply list_elem_of_here. }
    { intros d1 d2 H1 H2. apply Hapart; by apply list_elem_of_further. }
    exists self'.
    unfold self1, join in Hres2, Hw2. cbv beta in Hres2, Hw2.
    rewrite !result_bind, !trace_bind, !result_bind, Hres2, result_ret, trace_ret, Hres.
    repeat split.
    + f_equal. f_equal. simpl. lia.
    + intros [|i] d' Hi; simpl in Hi.
      * injection Hi as <-. etrans; [by apply Hrest|]. rewrite Hreg2. simpl.
        rewrite lookup_insert_eq. f_equal. lia.
      * etrans; [by apply Hidx|]. f_equal. lia.
    + intros path Hpath. rewrite fmap_cons, not_elem_of_cons in Hpath.
      destruct Hpath as [Hne Hpath].
      etrans; [by apply Hrest|]. rewrite Hreg2. simpl. by rewrite lookup_insert_ne.
    + rewrite app_nil_r, !watched_app, Hw2, Hw. done.
Qed.

(** Property X22. Directories whose watched paths are pairwise distinct, none of them
    being itself the watched path of another: [obt_linkbase_new] returns,
    the watched path of the directory at position [i] has priority [i], no
    other path is registered, and one watch is installed per directory, in
    the order of the list. *)
Theorem new_priorities (w : World) (data_dirs : list string) (locale : string)
    (env : guint) :
  let join := fun dir => g_build_filename w dir "applications" in
  NoDup (join <$> data_dirs) ->
  (forall d d', d ∈ data_dirs -> d' ∈ data_dirs -> d <> join d') ->
  exists self,
    result (obt_linkbase_new w data_dirs locale env) = Ok self
    /\ (forall i d, data_dirs !! i = Some d ->
          path_to_priority self !! join d = Some (Z.of_nat i))
    /\ (forall path, path ∉ join <$> data_dirs -> path_to_priority self !! path = None)
    /\ watched (trace (obt_linkbase_new w data_dirs locale env)) = join <$> data_dirs.
Proof.
  intros join Hnodup Hapart.
  destruct (register_loop w data_dirs (linkbase_alloc locale env) 0%Z Hnodup)
    as (self & Hres & Hidx & Hrest & Hw); [done | done |].
  exists self. unfold obt_linkbase_new.
  set (loop := foldM (register_dir w) _ data_dirs).
  change (result loop = Ok (self, (0 + Z.of_nat (List.length data_dirs))%Z)) in Hres.
  change (watched (trace loop) = join <$> data_dirs) in Hw.
  rewrite result_bind, trace_bind, Hres, result_ret, trace_ret, app_nil_r.
  repeat split; try done.
Qed.

Lemma watch_add_frame (w : World) (base_path : string) (self self' : ObtLinkBase) :
  result (obt_watch_add w base_path self) = Ok self' ->
  environments self' = environments self /\ language self' = language self
  /\ country self' = country self /\ modifier self' = modifier self.
Proof.
  unfold obt_watch_add. rewrite result_bind. simpl result. cbv iota.
  generalize (existing w base_path). intros files. revert self.
  induction files as [|f files IH]; intros self.
  - by intros [= <-].
  - rewrite foldM_cons, result_bind.
    destruct (result (update w base_path (fst f) (snd f) OBT_WATCH_ADDED self))
      as [s1|] eqn:Hs1; [|done].
    intros Hrest. destruct (IH s1 Hrest) as (-> & -> & -> & ->).
    by destruct (update_frame_aux _ _ _ _ _ _ _ Hs1)
      as (_ & _ & _ & _ & _ & -> & -> & -> & ->).
Qed.

Lemma register_frame (w : World) (dirs : list string) (st st' : ObtLinkBase * gint) :
  result (foldM (register_dir w) st dirs) = Ok st' ->
  environments (fst st') = environments (fst st)
  /\ language (fst st') = language (fst st)
  /\ country (fst st') = country (fst st)
  /\ modifier (fst st') = modifier (fst st).
Proof.
  revert st. induction dirs as [|d dirs IH]; intros st.
  - by intros [= <-].
  - rewrite foldM_cons, result_bind.
    destruct (result (register_dir w st d)) as [st1|] eqn:Hst1; [|done].
    intros Hrest. destruct (IH st1 Hrest) as (-> & -> & -> & ->).
    clear IH Hrest. destruct st as [s pri]. unfold register_dir in Hst1.
    destruct (path_to_priority s !! d); [by injection Hst1 as <-|].
    rewrite result_bind in Hst1.
    destruct (result (obt_watch_add w _ _)) as [s2|] eqn:Hs2; [|done].
    injection Hst1 as <-. by apply watch_add_frame in Hs2.
Qed.

(** Property X23. Whatever the directories and the files in them, [obt_linkbase_new]
    returns, and the structure it returns is well formed: every list of
    [base] is non-empty and in strictly ascending order of priority, and a
    link is listed under a category exactly when it is indexed, is an
    application and declares the category.  The environments are the ones
    passed in and the locale parts are those of the locale string. *)
Theorem new_well_formed (w : World) (data_dirs : list string) (locale : string)
    (env : guint) :
  exists self,
    result (obt_linkbase_new w data_dirs locale env) = Ok self
    /\ base_ascending self
    /\ base_nonempty self
    /\ categories_consistent self
    /\ environments self = env
    /\ language self = Locale.language (Locale.parse locale)
    /\ country self = Locale.country (Locale.parse locale)
    /\ modifier self = Locale.modifier (Locale.parse locale).
Proof.
  destruct (new_spec w data_dirs locale env) as (self & Hres & _ & _ & _ & Hreach).
  exists self. split; [done|].
  split; [by apply reachable_ascending|].
  split; [by apply reachable_nonempty|].
  split; [by apply reachable_consistent|].
  clear Hreach. revert Hres. unfold obt_linkbase_new. rewrite result_bind.
  destruct (result (foldM _ _ data_dirs)) as [st|] eqn:Hst; [|done].
  intros [= <-]. by apply register_frame in Hst.
Qed.

End Construction.

(** *** Reference counts *)

Section References.
Context `{LinkApi}.


Lemma base_entry_list_free_trace (value : list ObtLinkBaseEntry) :
  trace (base_entry_list_free value) = LinkUnref <$> (link <$> value).
Proof.
  unfold base_entry_list_free. induction value as [|e es IH]; [done|].
  rewrite foldM_cons, trace_bind. simpl. by rewrite IH.
Qed.

Lemma base_free_trace (l : list (string * list ObtLinkBaseEntry)) :
  released (trace (foldM (fun _ kv => base_entry_list_free (snd kv)) tt l))
  = concat (List.map (fun kv => List.map link (snd kv)) l).
Proof.
  induction l as [|kv l IH]; [done|].
  rewrite foldM_cons, trace_bind, base_entry_list_free_returns, released_app, IH.
  rewrite base_entry_list_free_trace. simpl. f_equal.
  generalize (snd kv). intros value. induction value as [|e es IHe]; [done|].
  simpl. by rewrite <- IHe.
Qed.

(** Property X25. The release that brings the count below one frees the structure: it
    releases the link of every entry of [base], each once, calls no
    callback and installs no watch. *)
Theorem last_unref_releases (self : ObtLinkBase) :
  (ref self <= 1)%Z ->
  result (obt_linkbase_unref self) = Ok None
  /\ released (trace (obt_linkbase_unref self)) = held self
  /\ callbacks (trace (obt_linkbase_unref self)) = []
  /\ watched (trace (obt_linkbase_unref self)) = [].
Proof.
  intros Href. split; [by apply release_last|].
  unfold obt_linkbase_unref. cbn [ref set_ref].
  destruct (Z.ltb_spec (ref self - 1) 1); [|lia].
  rewrite trace_bind, base_free_returns, trace_ret, app_nil_r.
  change (base (set_ref self (ref self - 1))) with (base self).
  split; [apply base_free_trace|].
  generalize (map_to_list (base self)). intros l.
  assert (forall value : list ObtLinkBaseEntry,
    callbacks (LinkUnref <$> (link <$> value)) = []
    /\ watched (LinkUnref <$> (link <$> value)) = []) as Hvalue.
  { induction value as [|e es [IH1 IH2]]; [done|]. split; [exact IH1 | exact IH2]. }
  induction l as [|kv l [IH1 IH2]]; [done|].
  rewrite foldM_cons, trace_bind, base_entry_list_free_returns, callbacks_app, watched_app.
  rewrite base_entry_list_free_trace, IH1, IH2.
  by destruct (Hvalue (snd kv)) as [-> ->].
Qed.

End References.

(** *** The further properties on the sample directories *)

Lemma find_base_entry_path_first_witness :
  exists e, [entry 0 gedit_home; entry 1 gedit_usr] !! 1%nat = Some e
    /\ obt_link_source_file (link e) = usr +:+ "/gedit.desktop".
Proof.
  pose proof (find_base_entry_path_first [entry 0 gedit_home; entry 1 gedit_usr]
                (usr +:+ "/gedit.desktop")) as Hfind.
  vm_compute find_base_entry_path in Hfind.
  destruct Hfind as (e & He & Hfile & _). by exists e.
Defined.

Lemma find_base_entry_priority_first_witness :
  (priority (entry 1 gedit_usr) < 5)%Z.
Proof.
  apply (find_base_entry_priority_first [entry 0 gedit_home; entry 1 gedit_usr] 5).
  apply list_elem_of_further, list_elem_of_here.
Defined.

Lemma category_remove_unlisted_witness :
  category_remove created_one 99 (LinkPtr gedit_usr) = undefined NullDereference.
Proof.
  apply (category_remove_unlisted created_one 99 gedit_usr).
  vm_compute. apply not_elem_of_nil.
Defined.

Lemma category_remove_listed_witness :
  exists lb', category_remove created_one Utility (LinkPtr gedit_usr) = mret lb'
              /\ base lb' = base created_one.
Proof.
  destruct (category_remove_listed created_one Utility gedit_usr)
    as (lb' & l1 & l2 & Hrun & _ & _ & _ & _ & _ & Hbase).
  - vm_compute. apply list_elem_of_here.
  - by exists lb'.
Defined.

Lemma update_ignores_witness :
  update one_dir usr "README" (usr +:+ "/README") OBT_WATCH_MODIFIED created_one
  = mret created_one.
Proof.
  apply (update_ignores one_dir usr "README" (usr +:+ "/README") OBT_WATCH_MODIFIED
           created_one).
  left. reflexivity.
Defined.

Lemma added_unregistered_witness :
  update one_dir home "gedit.desktop" (home +:+ "/gedit.desktop") OBT_WATCH_ADDED
    created_one = undefined NullDereference.
Proof.
  apply (added_unregistered one_dir home "gedit.desktop" (home +:+ "/gedit.desktop")
           created_one).
  - reflexivity.
  - vm_compute. reflexivity.
Defined.

Lemma registered_free (pri : gint) :
  forall e : ObtLinkBaseEntry,
    e ∈ default [] (base registered !! obt_link_id_from_ddfile "gedit.desktop") ->
    priority e <> pri.
Proof. intros e He. vm_compute in He. by apply elem_of_nil in He. Qed.

Lemma added_inserts_witness :
  exists self' lst',
    update two_dirs usr "gedit.desktop" (usr +:+ "/gedit.desktop") OBT_WATCH_ADDED
      registered = Run [] (Ok self')
    /\ base self' !! "gedit.desktop" = Some lst'
    /\ List.length lst' = 1%nat.
Proof.
  destruct (added_inserts two_dirs usr "gedit.desktop" (usr +:+ "/gedit.desktop")
              registered 1 gedit_usr)
    as (self' & lst' & Hrun & Hbase & _ & Hlen & _).
  - reflexivity.
  - vm_compute. reflexivity.
  - apply registered_free.
  - vm_compute. reflexivity.
  - reflexivity.
  - by exists self', lst'.
Defined.

Lemma added_files_categories_witness :
  exists self',
    result (update two_dirs usr "gedit.desktop" (usr +:+ "/gedit.desktop")
              OBT_WATCH_ADDED registered) = Ok self'
    /\ gedit_usr ∈ obt_linkbase_category self' Office.
Proof.
  destruct (added_files_categories two_dirs usr "gedit.desktop"
              (usr +:+ "/gedit.desktop") registered 1 gedit_usr)
    as (self' & Hres & Hcats).
  - reflexivity.
  - vm_compute. reflexivity.
  - apply registered_free.
  - vm_compute. reflexivity.
  - reflexivity.
  - exists self'. split; [done|]. apply Hcats. right. repeat split.
    vm_compute. apply list_elem_of_further, list_elem_of_here.
Defined.

Lemma added_skipped_witness :
  update with_hidden usr "hidden.desktop" (usr +:+ "/hidden.desktop") OBT_WATCH_ADDED
    registered = Run [LinkUnref hidden] (Ok registered)
  /\ update with_hidden usr "gone.desktop" (usr +:+ "/gone.desktop") OBT_WATCH_ADDED
       registered = mret registered.
Proof.
  split.
  - destruct (added_skipped with_hidden usr "hidden.desktop" (usr +:+ "/hidden.desktop")
                registered 1) as [_ Hhidden].
    + reflexivity.
    + vm_compute. reflexivity.
    + intros e He. vm_compute in He. by apply elem_of_nil in He.
    + apply (Hhidden hidden); [vm_compute; reflexivity | reflexivity].
  - destruct (added_skipped with_hidden usr "gone.desktop" (usr +:+ "/gone.desktop")
                registered 1) as [Hgone _].
    + reflexivity.
    + vm_compute. reflexivity.
    + intros e He. vm_compute in He. by apply elem_of_nil in He.
    + apply Hgone. vm_compute. reflexivity.
Defined.

Lemma update_frame_witness :
  path_to_priority
    (state_of (update two_dirs usr "gedit.desktop" (usr +:+ "/gedit.desktop")
                 OBT_WATCH_ADDED registered))
  = path_to_priority registered.
Proof.
  destruct (update_frame two_dirs usr "gedit.desktop" (usr +:+ "/gedit.desktop")
              OBT_WATCH_ADDED registered
              (state_of (update two_dirs usr "gedit.desktop" (usr +:+ "/gedit.desktop")
                           OBT_WATCH_ADDED registered)))
    as (_ & Hreg & _).
  - vm_compute. reflexivity.
  - exact Hreg.
Defined.

Lemma added_keeps_order_witness :
  exists self',
    result (update two_dirs usr "new.desktop" (usr +:+ "/new.desktop") OBT_WATCH_ADDED
              created_two) = Ok self'
    /\ base_ascending self'.
Proof.
  destruct (added_keeps_order two_dirs usr "new.desktop" (usr +:+ "/new.desktop")
              created_two 1) as (self' & Hres & Hasc & _).
  - vm_compute. reflexivity.
  - apply reachable_ascending, created_two_reachable.
  - by exists self'.
Defined.

Lemma added_order_irrelevant_witness :
  exists first second,
    result (update two_dirs home "gedit.desktop" (home +:+ "/gedit.desktop")
              OBT_WATCH_ADDED registered
            ≫= update two_dirs usr "gedit.desktop" (usr +:+ "/gedit.desktop")
                 OBT_WATCH_ADDED) = Ok first
    /\ result (update two_dirs usr "gedit.desktop" (usr +:+ "/gedit.desktop")
                 OBT_WATCH_ADDED registered
               ≫= update two_dirs home "gedit.desktop" (home +:+ "/gedit.desktop")
                    OBT_WATCH_ADDED) = Ok second
    /\ base first = base second.
Proof.
  destruct (added_order_irrelevant two_dirs "gedit.desktop"
              home (home +:+ "/gedit.desktop") usr (usr +:+ "/gedit.desktop")
              registered 0 1 gedit_home gedit_usr)
    as (first & second & H1 & H2 & Hsame & _).
  - reflexivity.
  - vm_compute. reflexivity.
  - vm_compute. reflexivity.
  - lia.
  - vm_compute. constructor.
  - intros e He. vm_compute in He. by apply elem_of_nil in He.
  - vm_compute. reflexivity.
  - vm_compute. reflexivity.
  - reflexivity.
  - reflexivity.
  - by exists first, second.
Defined.

Lemma new_priorities_witness :
  exists self,
    result (obt_linkbase_new two_dirs ["/home/u/.local/share"; "/usr/share"] "en_US" 0)
    = Ok self
    /\ path_to_priority self !! usr = Some 1%Z
    /\ watched (trace (obt_linkbase_new two_dirs
                         ["/home/u/.local/share"; "/usr/share"] "en_US" 0))
       = [home; usr].
Proof.
  destruct (new_priorities two_dirs ["/home/u/.local/share"; "/usr/share"] "en_US" 0)
    as (self & Hres & Hidx & _ & Hwatched).
  - vm_compute. apply NoDup_cons. split.
    + intros Hin. apply list_elem_of_singleton in Hin. discriminate Hin.
    + apply NoDup_singleton.
  - intros d d' Hd Hd' Heq.
    apply elem_of_cons in Hd as [-> | Hd]; [|apply list_elem_of_singleton in Hd as ->];
      (apply elem_of_cons in Hd' as [-> | Hd'];
        [|apply list_elem_of_singleton in Hd' as ->]);
      vm_compute in Heq; discriminate Heq.
  - exists self. split; [done|]. split; [|done].
    exact (Hidx 1%nat "/usr/share" eq_refl).
Defined.


Lemma last_unref_releases_witness :
  result (obt_linkbase_unref created_one) = Ok None
  /\ released (trace (obt_linkbase_unref created_one)) = held created_one.
Proof.
  destruct (last_unref_releases created_one) as (Hres & Hreleased & _).
  - vm_compute. discriminate.
  - by split.
Defined.

Lemma indexed_file_undefined_witness :
  result (update one_dir usr "gedit.desktop" (usr +:+ "/gedit.desktop")
            OBT_WATCH_REMOVED created_one) = Undefined WrongObject.
Proof.
  apply (indexed_file_undefined one_dir usr "gedit.desktop" (usr +:+ "/gedit.desktop")
           OBT_WATCH_REMOVED created_one).
  - reflexivity.
  - by left.
  - vm_compute. discriminate.
Defined.

